(** * TDSBridge-go: the client-to-server TDS framing engine

    A shallow embedding of [pkg/header.go], [pkg/packet.go],
    [pkg/message.go], the ingress loop of [pkg/connection.go] and [main.go],
    followed by the properties of the natural-language specification.

    Conventions.
    - Go's [int] is taken to be 64 bits wide.  Every [int] computed below is
      bounded by the size of a slice or by 65535, so it is written as a [Z]
      without wrap-around; [uint16] and [uint32] arithmetic is written with
      its wrap-around.
    - A [byte] is [Init.Byte.byte]; [byte.unsigned] gives its value.
    - A slice is a [list]; the capacity of every slice the code takes a
      sub-slice of equals its length (they all come from [make]).
    - A run-time panic is the [Panic] result of the [result] monad.
    - Pointers to packets and headers are never nil in the bridge; packets
      and headers are values here. *)

From Stdlib Require Import ZArith List Lia Bool.
From Stdlib Require String.
From coqutil Require Import Byte Word.LittleEndianList Z.bitblast.
Import ListNotations.
Local Open Scope Z_scope.

(* ===================================================================== *)
(** * The fragment of the Go runtime the code relies on *)
(* ===================================================================== *)

Module Go.

Inductive panic : Set :=
| IndexOutOfRange
| SliceBoundsOutOfRange
| MakesliceLenOutOfRange.

Inductive result (A : Type) : Type :=
| Ok (a : A)
| Panic (p : panic).
Arguments Ok {A} a.
Arguments Panic {A} p.

Definition bind {A B} (c : result A) (k : A -> result B) : result B :=
  match c with
  | Ok a => k a
  | Panic p => Panic p
  end.

(** [len(s)] *)
Definition len {A} (s : list A) : Z := Z.of_nat (length s).

(** [s[i]] *)
Definition index {A} (s : list A) (i : Z) : result A :=
  if (0 <=? i) && (i <? len s) then
    match nth_error s (Z.to_nat i) with
    | Some a => Ok a
    | None => Panic IndexOutOfRange
    end
  else Panic IndexOutOfRange.

(** [s[i] = v] *)
Definition store {A} (s : list A) (i : Z) (v : A) : result (list A) :=
  if (0 <=? i) && (i <? len s) then
    Ok (firstn (Z.to_nat i) s ++ v :: skipn (S (Z.to_nat i)) s)
  else Panic IndexOutOfRange.

(** [s[:hi]] *)
Definition slice_to {A} (s : list A) (hi : Z) : result (list A) :=
  if (0 <=? hi) && (hi <=? len s) then Ok (firstn (Z.to_nat hi) s)
  else Panic SliceBoundsOutOfRange.

(** [s[lo:]] *)
Definition slice_from {A} (s : list A) (lo : Z) : result (list A) :=
  if (0 <=? lo) && (lo <=? len s) then Ok (skipn (Z.to_nat lo) s)
  else Panic SliceBoundsOutOfRange.

(** [make([]T, n)], every element the zero value of [T] *)
Definition make {A} (zero : A) (n : Z) : result (list A) :=
  if n <? 0 then Panic MakesliceLenOutOfRange
  else Ok (repeat zero (Z.to_nat n)).

(** [copy(dst, src)]: the first [min(len(dst), len(src))] elements of
    [dst] are overwritten; the value is [dst] afterwards. *)
Definition copy {A} (dst src : list A) : list A :=
  firstn (length dst) src ++ skipn (length src) dst.

(** Go's [string]: an immutable sequence of bytes. *)
Definition gostring := list byte.

(** Fixed-width unsigned arithmetic. *)
Definition u16 (z : Z) : Z := z mod 2 ^ 16.
Definition u32 (z : Z) : Z := z mod 2 ^ 32.

End Go.

Import Go.

Notation "x <- c ;; k" := (Go.bind c (fun x => k))
  (at level 61, c at next level, right associativity).
Notation "' pat <- c ;; k" := (Go.bind c (fun x => match x with pat => k end))
  (at level 61, pat pattern, c at next level, right associativity).

Definition x00 : byte := Byte.x00.

(* ===================================================================== *)
(** * pkg/header.go *)
(* ===================================================================== *)

Definition HeaderType := Z.

Definition SQLBatch : HeaderType := 1.
Definition PreTD7Login : HeaderType := 2.
Definition RPC : HeaderType := 3.
Definition TabularResult : HeaderType := 4.
Definition AttentionSignal : HeaderType := 6.
Definition BulkLoadData : HeaderType := 7.
Definition TransactionManagerRequest : HeaderType := 14.
Definition TDS7Login : HeaderType := 16.
Definition SSPIMessage : HeaderType := 17.
Definition PreLoginMessage : HeaderType := 18.
Definition UnknownHeader : HeaderType := 0xFF.

Definition NORMAL : Z := 0x00.
Definition END_OF_MESSAGE : Z := 0x01.
Definition IGNORE_EVENT : Z := 0x02.
Definition MULTI_PART_MESSAGE : Z := 0x04.
Definition RESET_CONNECTION : Z := 0x08.
Definition RESET_CONNECTION_SKIP_TRAN : Z := 0x10.

Record TDSHeader : Type := { Buffer : list byte }.

Definition HEADER_SIZE : Z := 8.

Definition NewTDSHeader (buffer : list byte) : result TDSHeader :=
  hBuffer <- make x00 HEADER_SIZE ;;
  if len buffer >=? HEADER_SIZE then
    src <- slice_to buffer HEADER_SIZE ;;
    Ok {| Buffer := copy hBuffer src |}
  else Ok {| Buffer := hBuffer |}.

Definition Type_ (h : TDSHeader) : result HeaderType :=
  b <- index (Buffer h) 0 ;; Ok (byte.unsigned b).

Definition StatusBitMask (h : TDSHeader) : result byte :=
  index (Buffer h) 1.

Definition LengthIncludingHeader (h : TDSHeader) : result Z :=
  b2 <- index (Buffer h) 2 ;;
  b3 <- index (Buffer h) 3 ;;
  Ok (byte.unsigned b2 * 0x100 + byte.unsigned b3).

Definition PayloadSize (h : TDSHeader) : result Z :=
  l <- LengthIncludingHeader h ;; Ok (l - HEADER_SIZE).

Record AllHeader : Type := { AllHeader_Payload : list byte }.

Definition NewAllHeader (payload : list byte) : AllHeader :=
  {| AllHeader_Payload := payload |}.

(** [AllHeader.Length], a [uint32]. *)
Definition AllHeader_Length (ah : AllHeader) : result Z :=
  let p := AllHeader_Payload ah in
  if len p >=? 4 then
    p3 <- index p 3 ;;
    p2 <- index p 2 ;;
    p1 <- index p 1 ;;
    p0 <- index p 0 ;;
    Ok (u32 (u32 (u32 (u32 (byte.unsigned p3 * 0x01000000)
                       + u32 (byte.unsigned p2 * 0x00010000))
                  + u32 (byte.unsigned p1 * 0x00000100))
             + u32 (byte.unsigned p0 * 0x00000001)))
  else Ok 0.

(* ===================================================================== *)
(** * pkg/packet.go *)
(* ===================================================================== *)

Record TDSPacket : Type := { Header : TDSHeader; Payload : list byte }.

Definition NewTDSPacket (header payload : list byte) (payloadSize : Z)
  : result TDSPacket :=
  tHeader <- NewTDSHeader header ;;
  tPayload <- make x00 payloadSize ;;
  if len payload >=? payloadSize then
    src <- slice_to payload payloadSize ;;
    Ok {| Header := tHeader; Payload := copy tPayload src |}
  else Ok {| Header := tHeader; Payload := tPayload |}.

(* ===================================================================== *)
(** * The Go standard library functions [GetBatchText] calls *)
(* ===================================================================== *)

(** [unicode/utf16]: [Decode] turns UTF-16 code units into code points. *)
Module utf16.

Definition surr1 : Z := 0xd800.
Definition surr2 : Z := 0xdc00.
Definition surr3 : Z := 0xe000.
Definition surrSelf : Z := 0x10000.
Definition replacementChar : Z := 0xFFFD.

(** [DecodeRune(r1, r2)] on a valid surrogate pair. *)
Definition DecodeRune (r1 r2 : Z) : Z :=
  Z.lor (Z.shiftl (r1 - surr1) 10) (r2 - surr2) + surrSelf.

Fixpoint Decode (s : list Z) : list Z :=
  match s with
  | [] => []
  | r :: rest =>
      if (r <? surr1) || (surr3 <=? r) then r :: Decode rest
      else
        match rest with
        | r2 :: rest' =>
            if (surr1 <=? r) && (r <? surr2) && (surr2 <=? r2) && (r2 <? surr3)
            then DecodeRune r r2 :: Decode rest'
            else replacementChar :: Decode rest
        | [] => [replacementChar]
        end
  end.

End utf16.

(** The conversion [string(runes)] of a [[]rune]: the UTF-8 encoding of
    every rune, an invalid rune being encoded as U+FFFD. *)
Module utf8.

Definition RuneError : Z := 0xFFFD.
Definition MaxRune : Z := 0x10FFFF.
Definition surrogateMin : Z := 0xD800.
Definition surrogateMax : Z := 0xDFFF.

Definition cont (z : Z) : byte := byte.of_Z (Z.lor 0x80 (Z.land z 0x3F)).

Definition encode3 (r : Z) : list byte :=
  [byte.of_Z (Z.lor 0xE0 (Z.shiftr r 12)); cont (Z.shiftr r 6); cont r].

Definition EncodeRune (r : Z) : list byte :=
  if (0 <=? r) && (r <=? 0x7F) then [byte.of_Z r]
  else if (0 <=? r) && (r <=? 0x7FF) then
    [byte.of_Z (Z.lor 0xC0 (Z.shiftr r 6)); cont r]
  else if (r <? 0) || (MaxRune <? r)
          || ((surrogateMin <=? r) && (r <=? surrogateMax))
  then encode3 RuneError
  else if r <=? 0xFFFF then encode3 r
  else [byte.of_Z (Z.lor 0xF0 (Z.shiftr r 18)); cont (Z.shiftr r 12);
        cont (Z.shiftr r 6); cont r].

Definition string_of_runes (rs : list Z) : gostring :=
  flat_map EncodeRune rs.

End utf8.

(* ===================================================================== *)
(** * pkg/message.go *)
(* ===================================================================== *)

Record BaseTDSMessage : Type := { Packets : list TDSPacket }.

Definition NewBaseTDSMessage : BaseTDSMessage := {| Packets := [] |}.

Definition NewBaseTDSMessageWithPacket (firstPacket : TDSPacket)
  : BaseTDSMessage := {| Packets := [firstPacket] |}.

(** The last packet's status byte has all the bits of [mask]. *)
Definition last_status_has (mask : Z) (m : BaseTDSMessage) : result bool :=
  if len (Packets m) =? 0 then Ok false
  else
    lastPacket <- index (Packets m) (len (Packets m) - 1) ;;
    status <- StatusBitMask (Header lastPacket) ;;
    Ok (Z.land (byte.unsigned status) mask =? mask).

Definition Base_IsComplete (m : BaseTDSMessage) : result bool :=
  last_status_has END_OF_MESSAGE m.

Definition Base_HasIgnoreBitSet (m : BaseTDSMessage) : result bool :=
  last_status_has IGNORE_EVENT m.

(** The second loop of [AssemblePayload]:
    [copy(payload[currentPosition:], packet.Payload)] for every packet. *)
Fixpoint assemble_copy (packets : list TDSPacket) (payload : list byte)
  (currentPosition : Z) : result (list byte) :=
  match packets with
  | [] => Ok payload
  | packet :: packets' =>
      window <- slice_from payload currentPosition ;;
      assemble_copy packets'
        (firstn (Z.to_nat currentPosition) payload
           ++ copy window (Payload packet))
        (currentPosition + len (Payload packet))
  end.

Definition Base_AssemblePayload (m : BaseTDSMessage) : result (list byte) :=
  let totalSize :=
    fold_left (fun acc packet => acc + len (Payload packet)) (Packets m) 0 in
  payload <- make x00 totalSize ;;
  assemble_copy (Packets m) payload 0.

Definition Base_AddPacket (m : BaseTDSMessage) (packet : TDSPacket)
  : BaseTDSMessage := {| Packets := Packets m ++ [packet] |}.

(** The four implementations of the [TDSMessage] interface; each embeds a
    [*BaseTDSMessage]. *)
Inductive TDSMessage : Type :=
| DefaultTDSMessage (base : BaseTDSMessage)
| SQLBatchMessage (base : BaseTDSMessage)
| RPCRequestMessage (base : BaseTDSMessage)
| AttentionMessage (base : BaseTDSMessage).

Definition base_of (m : TDSMessage) : BaseTDSMessage :=
  match m with
  | DefaultTDSMessage b | SQLBatchMessage b
  | RPCRequestMessage b | AttentionMessage b => b
  end.

Definition with_base (m : TDSMessage) (b : BaseTDSMessage) : TDSMessage :=
  match m with
  | DefaultTDSMessage _ => DefaultTDSMessage b
  | SQLBatchMessage _ => SQLBatchMessage b
  | RPCRequestMessage _ => RPCRequestMessage b
  | AttentionMessage _ => AttentionMessage b
  end.

Definition IsComplete (m : TDSMessage) : result bool :=
  Base_IsComplete (base_of m).
Definition HasIgnoreBitSet (m : TDSMessage) : result bool :=
  Base_HasIgnoreBitSet (base_of m).
Definition AssemblePayload (m : TDSMessage) : result (list byte) :=
  Base_AssemblePayload (base_of m).
Definition AddPacket (m : TDSMessage) (packet : TDSPacket) : TDSMessage :=
  with_base m (Base_AddPacket (base_of m) packet).
Definition GetPackets (m : TDSMessage) : list TDSPacket :=
  Packets (base_of m).

Definition NewDefaultTDSMessage : TDSMessage :=
  DefaultTDSMessage NewBaseTDSMessage.
Definition NewDefaultTDSMessageWithPacket (firstPacket : TDSPacket) :=
  DefaultTDSMessage (NewBaseTDSMessageWithPacket firstPacket).
Definition NewSQLBatchMessage : TDSMessage :=
  SQLBatchMessage NewBaseTDSMessage.
Definition NewSQLBatchMessageWithPacket (firstPacket : TDSPacket) :=
  SQLBatchMessage (NewBaseTDSMessageWithPacket firstPacket).
Definition NewRPCRequestMessage : TDSMessage :=
  RPCRequestMessage NewBaseTDSMessage.
Definition NewRPCRequestMessageWithPacket (firstPacket : TDSPacket) :=
  RPCRequestMessage (NewBaseTDSMessageWithPacket firstPacket).
Definition NewAttentionMessage : TDSMessage :=
  AttentionMessage NewBaseTDSMessage.
Definition NewAttentionMessageWithPacket (firstPacket : TDSPacket) :=
  AttentionMessage (NewBaseTDSMessageWithPacket firstPacket).

(** The loop of [GetBatchText]:
    [for i := 0; i < len(utf16Runes); i++ { utf16Runes[i] = ... }];
    [todo] counts the iterations that remain. *)
Fixpoint fill_utf16Runes (utf16Bytes : list byte) (utf16Runes : list Z)
  (i : Z) (todo : nat) : result (list Z) :=
  match todo with
  | O => Ok utf16Runes
  | S todo' =>
      lo <- index utf16Bytes (i * 2) ;;
      hi <- index utf16Bytes (i * 2 + 1) ;;
      utf16Runes' <- store utf16Runes i
        (u16 (u16 (byte.unsigned lo) + u16 (Z.shiftl (u16 (byte.unsigned hi)) 8))) ;;
      fill_utf16Runes utf16Bytes utf16Runes' (i + 1) todo'
  end.

(** [SQLBatchMessage.GetBatchText], on the embedded base message. *)
Definition GetBatchText (m : BaseTDSMessage) : result gostring :=
  payload <- Base_AssemblePayload m ;;
  headerLength <- AllHeader_Length (NewAllHeader payload) ;;
  if len payload >? headerLength then
    utf16Bytes <- slice_from payload headerLength ;;
    utf16Runes <- make 0 (len utf16Bytes / 2) ;;
    utf16Runes <- fill_utf16Runes utf16Bytes utf16Runes 0
                    (Z.to_nat (len utf16Runes)) ;;
    Ok (utf8.string_of_runes (utf16.Decode utf16Runes))
  else Ok [].

Definition CreateTDSMessageFromFirstPacket (firstPacket : TDSPacket)
  : result TDSMessage :=
  t <- Type_ (Header firstPacket) ;;
  if t =? SQLBatch then Ok (NewSQLBatchMessageWithPacket firstPacket)
  else if t =? AttentionSignal then Ok (NewAttentionMessageWithPacket firstPacket)
  else if t =? RPC then Ok (NewRPCRequestMessageWithPacket firstPacket)
  else Ok (NewDefaultTDSMessageWithPacket firstPacket).

(* ===================================================================== *)
(** * pkg/connection.go: the ingress loop *)
(* ===================================================================== *)

Inductive ConnectionType : Set := ClientBridge | BridgeSQL.

(** ** The two sockets of a [SocketCouple], seen from the ingress loop

    The client socket is the stream of what is still to arrive: bursts of
    bytes (TCP segments as the kernel hands them over) and connection
    failures; the empty stream is the end of the stream.  A [Read] returns
    at most one burst, cut to the size of the buffer; what does not fit
    stays in the socket. *)

Inductive error : Set := EOF | ConnectionError.

Inductive arrival : Type :=
| Burst (bs : list byte)
| Broken.

Definition ClientSocket := list arrival.

(** [n, err := conn.Read(b)]: the buffer afterwards, [n], [err] and the
    socket afterwards. *)
Definition Read (conn : ClientSocket) (b : list byte)
  : list byte * Z * option error * ClientSocket :=
  if len b =? 0 then (b, 0, None, conn)
  else
    match conn with
    | [] => (b, 0, Some EOF, [])
    | Broken :: rest => (b, 0, Some ConnectionError, rest)
    | Burst bs :: rest =>
        let got := firstn (length b) bs in
        let left := skipn (length b) bs in
        (copy b got, len got, None,
         match left with [] => rest | _ :: _ => Burst left :: rest end)
    end.

(** [conn.Read(buf[:hi])]: the read goes through a slice that shares its
    storage with [buf], so [buf] itself changes. *)
Definition Read_prefix (conn : ClientSocket) (buf : list byte) (hi : Z)
  : result (list byte * Z * option error * ClientSocket) :=
  view <- slice_to buf hi ;;
  let '(view', n, err, conn') := Read conn view in
  Ok (view' ++ skipn (Z.to_nat hi) buf, n, err, conn').

(** The upstream socket: the number of [Write] calls it still accepts
    ([None]: it never fails).  A failing [Write] delivers nothing. *)
Definition UpstreamSocket := option nat.

Definition Write (conn : UpstreamSocket) (b : list byte)
  : option error * UpstreamSocket :=
  match conn with
  | None => (None, None)
  | Some (S k) => (None, Some k)
  | Some O => (Some ConnectionError, Some O)
  end.

(** ** What the loop does that can be observed *)

Inductive event : Type :=
| ClientRead (requested : Z) (got : list byte) (err : option error)
| TDSPacketReceived (packet : TDSPacket)
| TDSMessageReceived (msg : TDSMessage)
| UpstreamWrite (b : list byte) (err : option error)
| BridgeException (ct : ConnectionType) (err : option error)
| ConnectionDisconnected (ct : ConnectionType).

(** ** The loop *)

(** The local variables of [clientBridgeToSQLServer] and the two sockets. *)
Record Ingress : Type := {
  st_client : ClientSocket;
  st_upstream : UpstreamSocket;
  st_bBuffer : list byte;            (* the nil slice is the empty list *)
  st_bHeader : list byte;
  st_tdsMessage : option TDSMessage  (* nil is [None] *)
}.

Inductive exit : Set :=
| Returned
| Panicked (p : panic).

(** A computation of the loop body publishes events, and then either goes
    on with a value or leaves the function. *)
Definition M (A : Type) : Type := list event * (A + exit).

Definition ret {A} (a : A) : M A := ([], inl a).

Definition mbind {A B} (c : M A) (k : A -> M B) : M B :=
  match c with
  | (evs, inl a) => let '(evs', r) := k a in (evs ++ evs', r)
  | (evs, inr e) => (evs, inr e)
  end.

Definition emit (ev : event) : M unit := ([ev], inl tt).

Definition lift {A} (c : result A) : M A :=
  match c with
  | Ok a => ret a
  | Panic p => ([], inr (Panicked p))
  end.

(** [return] *)
Definition return_ {A} : M A := ([], inr Returned).

Notation "x <~ c ;; k" := (mbind c (fun x => k))
  (at level 61, c at next level, right associativity).
Notation "' pat <~ c ;; k" := (mbind c (fun x => match x with pat => k end))
  (at level 61, pat pattern, c at next level, right associativity).
Notation "c ;;; k" := (mbind c (fun _ => k))
  (at level 61, right associativity).

Definition max (a b : Z) : Z := if a >? b then a else b.

Definition is_nil {A} (s : list A) : bool :=
  match s with [] => true | _ => false end.

Definition is_err (e : option error) : bool :=
  match e with Some _ => true | None => false end.

(** [received, err = bc.SocketCouple.ClientBridgeSocket.Read(bBuffer[:hi])] *)
Definition client_Read (conn : ClientSocket) (bBuffer : list byte) (hi : Z)
  : M (list byte * Z * option error * ClientSocket) :=
  ' (bBuffer', received, err, conn') <~ lift (Read_prefix conn bBuffer hi) ;;
  emit (ClientRead hi (firstn (Z.to_nat received) bBuffer') err) ;;;
  ret (bBuffer', received, err, conn').

(** [_, err = bc.SocketCouple.BridgeSQLSocket.Write(b)] *)
Definition upstream_Write (conn : UpstreamSocket) (b : list byte)
  : M (option error * UpstreamSocket) :=
  let '(err, conn') := Write conn b in
  emit (UpstreamWrite b err) ;;; ret (err, conn').

(** [bc.onBridgeException(ClientBridge, err); return] *)
Definition report_and_return {A} (err : option error) : M A :=
  emit (BridgeException ClientBridge err) ;;; return_.

(** The body of the [for] loop of [clientBridgeToSQLServer], block by
    block as the comments of the source cut it. *)

(** Receive the header: [n, err := ...ClientBridgeSocket.Read(bHeader)]. *)
Definition receive_header (conn : ClientSocket) (bHeader : list byte)
  : M (list byte * ClientSocket) :=
  let '(bHeader', n, err, conn') := Read conn bHeader in
  emit (ClientRead (len bHeader) (firstn (Z.to_nat n) bHeader') err) ;;;
  if is_err err || (n =? 0) then report_and_return err
  else ret (bHeader', conn').

(** Make sure the buffer is large enough. *)
Definition ensure_buffer (header : TDSHeader) (bBuffer : list byte)
  : M (list byte) :=
  lih <~ lift (LengthIncludingHeader header) ;;
  let minBufferSize := max 0x1000 (lih + 1) in
  if is_nil bBuffer || (len bBuffer <? minBufferSize)
  then lift (make x00 minBufferSize)
  else ret bBuffer.

(** Receive the payload.  [err] is still the [nil] of the header's [Read]
    when neither branch reads. *)
Definition receive_payload (header : TDSHeader) (conn : ClientSocket)
  (bBuffer : list byte) : M (list byte * Z * ClientSocket) :=
  t <~ lift (Type_ header) ;;
  payloadSize <~ lift (PayloadSize header) ;;
  ' (bBuffer', received, err, conn') <~
      (if t =? 23 then client_Read conn bBuffer (0x1000 - HEADER_SIZE)
       else if payloadSize >? 0 then client_Read conn bBuffer payloadSize
       else ret (bBuffer, 0, None, conn)) ;;
  if is_err err then report_and_return err
  else ret (bBuffer', received, conn').

(** Make the packet, publish it, build the message and publish it when the
    packet ends it. *)
Definition publish (header : TDSHeader) (bHeader bBuffer : list byte)
  (tdsMessage : option TDSMessage) : M (option TDSMessage) :=
  payloadSize <~ lift (PayloadSize header) ;;
  tdsPacket <~ lift (NewTDSPacket bHeader bBuffer payloadSize) ;;
  emit (TDSPacketReceived tdsPacket) ;;;
  tdsMessage <~ (match tdsMessage with
                 | None => lift (CreateTDSMessageFromFirstPacket tdsPacket)
                 | Some m => ret (AddPacket m tdsPacket)
                 end) ;;
  status <~ lift (StatusBitMask header) ;;
  if Z.land (byte.unsigned status) END_OF_MESSAGE =? END_OF_MESSAGE then
    emit (TDSMessageReceived tdsMessage) ;;; ret None
  else ret (Some tdsMessage).

(** Send the header, then the payload, to SQL Server. *)
Definition forward (header : TDSHeader) (bHeader bBuffer : list byte)
  (received : Z) (conn : UpstreamSocket) : M UpstreamSocket :=
  ' (err, conn) <~ upstream_Write conn bHeader ;;
  if is_err err then report_and_return err
  else
  t <~ lift (Type_ header) ;;
  payloadSize <~ lift (PayloadSize header) ;;
  out <~ lift (if t =? 23 then slice_to bBuffer received
               else slice_to bBuffer payloadSize) ;;
  ' (err, conn) <~ upstream_Write conn out ;;
  if is_err err then report_and_return err
  else ret conn.

(** One turn of the loop. *)
Definition iteration (s : Ingress) : M Ingress :=
  ' (bHeader, client) <~ receive_header (st_client s) (st_bHeader s) ;;
  header <~ lift (NewTDSHeader bHeader) ;;
  bBuffer <~ ensure_buffer header (st_bBuffer s) ;;
  ' (bBuffer, received, client) <~ receive_payload header client bBuffer ;;
  tdsMessage <~ publish header bHeader bBuffer (st_tdsMessage s) ;;
  upstream <~ forward header bHeader bBuffer received (st_upstream s) ;;
  ret {| st_client := client; st_upstream := upstream; st_bBuffer := bBuffer;
         st_bHeader := bHeader; st_tdsMessage := tdsMessage |}.

(** The [for] loop; [fuel] bounds the number of turns, and [None] says
    that the loop has not left the function within [fuel] turns. *)
Fixpoint ingress_loop (fuel : nat) (s : Ingress) : list event * option exit :=
  match fuel with
  | O => ([], None)
  | S fuel' =>
      match iteration s with
      | (evs, inl s') =>
          let '(evs', r) := ingress_loop fuel' s' in (evs ++ evs', r)
      | (evs, inr e) => (evs, Some e)
      end
  end.

(** The state at the entry of the loop:
    [var bBuffer []byte; bHeader := make([]byte, HEADER_SIZE);
     var tdsMessage TDSMessage]. *)
Definition ingress_start (couple : ClientSocket * UpstreamSocket)
  : result Ingress :=
  bHeader <- make x00 HEADER_SIZE ;;
  Ok {| st_client := fst couple; st_upstream := snd couple;
        st_bBuffer := []; st_bHeader := bHeader; st_tdsMessage := None |}.

(** [clientBridgeToSQLServer]: the loop, and on the way out the deferred
    [bc.onConnectionDisconnected(ClientBridge)]. *)
Definition clientBridgeToSQLServer (fuel : nat)
  (couple : ClientSocket * UpstreamSocket) : list event * option exit :=
  match ingress_start couple with
  | Ok s =>
      match ingress_loop fuel s with
      | (evs, Some e) => (evs ++ [ConnectionDisconnected ClientBridge], Some e)
      | (evs, None) => (evs, None)
      end
  | Panic p => ([ConnectionDisconnected ClientBridge], Some (Panicked p))
  end.

(** The bytes the loop took from the client socket, and the bytes it
    handed to the upstream socket, in order. *)
Fixpoint bytes_read (tr : list event) : list byte :=
  match tr with
  | [] => []
  | ClientRead _ got _ :: tr' => got ++ bytes_read tr'
  | _ :: tr' => bytes_read tr'
  end.

Fixpoint bytes_written (tr : list event) : list byte :=
  match tr with
  | [] => []
  | UpstreamWrite b None :: tr' => b ++ bytes_written tr'
  | _ :: tr' => bytes_written tr'
  end.

(** A [Read] that returned as many bytes as it was asked for. *)
Definition whole_read (ev : event) : bool :=
  match ev with
  | ClientRead requested got _ => len got =? requested
  | _ => true
  end.

(** The sizes of the [Read]s asked of the client socket, and the slices
    handed to [Write], in order. *)
Fixpoint read_requests (tr : list event) : list Z :=
  match tr with
  | [] => []
  | ClientRead requested _ _ :: tr' => requested :: read_requests tr'
  | _ :: tr' => read_requests tr'
  end.

Fixpoint writes (tr : list event) : list (list byte) :=
  match tr with
  | [] => []
  | UpstreamWrite b _ :: tr' => b :: writes tr'
  | _ :: tr' => writes tr'
  end.

(** What the second [Read] of a turn returned, when there was one. *)
Definition payload_read (tr : list event) : option (list byte) :=
  match tr with
  | ClientRead _ _ _ :: ClientRead _ got _ :: _ => Some got
  | _ => None
  end.

(** The header a turn of the loop parses, when its first [Read] brings
    one. *)
Definition parsed_header (s : Ingress) : option TDSHeader :=
  match receive_header (st_client s) (st_bHeader s) with
  | (_, inl (bHeader, _)) =>
      match NewTDSHeader bHeader with
      | Ok header => Some header
      | Panic _ => None
      end
  | (_, inr _) => None
  end.

(** The sizes of the payload [Read]s of a turn whose header has the type
    [t] and the payload size [payloadSize]. *)
Definition payload_request (t payloadSize : Z) : list Z :=
  if t =? 23 then [0x1000 - HEADER_SIZE]
  else if payloadSize >? 0 then [payloadSize]
  else [].

(** What is left to happen on a client socket: a bound on the turns of
    the loop. *)
Fixpoint pending_input (conn : ClientSocket) : nat :=
  match conn with
  | [] => 0
  | Burst bs :: rest => S (length bs + pending_input rest)
  | Broken :: rest => S (pending_input rest)
  end.

(** The packets of the message in progress. *)
Definition in_progress (tdsMessage : option TDSMessage) : list TDSPacket :=
  match tdsMessage with
  | Some m => GetPackets m
  | None => []
  end.

(** The notifications to the two TDS observers. *)
Inductive notification : Type :=
| NPacket (packet : TDSPacket)
| NMessage (msg : TDSMessage).

Fixpoint notifications (tr : list event) : list notification :=
  match tr with
  | [] => []
  | TDSPacketReceived p :: tr' => NPacket p :: notifications tr'
  | TDSMessageReceived m :: tr' => NMessage m :: notifications tr'
  | _ :: tr' => notifications tr'
  end.

(** The [tdsPacket] of a turn of the loop: what [NewTDSPacket] makes of
    the header and of the buffer once both [Read]s are done, when the turn
    gets there. *)
Definition packet_built (s : Ingress) : option TDSPacket :=
  match snd (' (bHeader, client) <~ receive_header (st_client s) (st_bHeader s) ;;
             header <~ lift (NewTDSHeader bHeader) ;;
             bBuffer <~ ensure_buffer header (st_bBuffer s) ;;
             ' (bBuffer, received, client) <~
                 receive_payload header client bBuffer ;;
             payloadSize <~ lift (PayloadSize header) ;;
             lift (NewTDSPacket bHeader bBuffer payloadSize)) with
  | inl tdsPacket => Some tdsPacket
  | inr _ => None
  end.

(** The packets the loop builds within [fuel] turns, in the order of the
    turns. *)
Fixpoint packets_built (fuel : nat) (s : Ingress) : list TDSPacket :=
  match fuel with
  | O => []
  | S fuel' =>
      match packet_built s with Some tdsPacket => [tdsPacket] | None => [] end
      ++ match snd (iteration s) with
         | inl s' => packets_built fuel' s'
         | inr _ => []
         end
  end.

(** The packets [clientBridgeToSQLServer] builds from the client socket of
    [couple]. *)
Definition packets_of_run (fuel : nat) (couple : ClientSocket * UpstreamSocket)
  : list TDSPacket :=
  match ingress_start couple with
  | Ok s => packets_built fuel s
  | Panic _ => []
  end.

(* ===================================================================== *)
(** * pkg/connection.go: the acceptor's life cycle, and main.go *)
(* ===================================================================== *)

Module Main.

Import Stdlib.Strings.String.
Local Open Scope string_scope.
Local Open Scope Z_scope.

Definition text := string.

(** What the process finds around it: its arguments, the resolver and
    whether the listen port can be bound. *)
Record Env : Type := {
  Args : list text;                        (* os.Args *)
  LookupHost : text -> option (list text); (* [None]: err != nil *)
  Listen : text -> bool                    (* [false]: err != nil *)
}.

Record BridgeAcceptor : Type := {
  acceptPort : text;
  sqlServerEndpoint : text * text;         (* host and port, joined *)
  enabled : bool;
  listener : option text                   (* nil is [None] *)
}.

Definition NewBridgeAcceptor (acceptPort : text)
  (sqlServerEndpoint : text * text) : BridgeAcceptor :=
  {| acceptPort := acceptPort; sqlServerEndpoint := sqlServerEndpoint;
     enabled := false; listener := None |}.

(** [Start]: [true] in the second component stands for [err != nil]. *)
Definition Start (listen : text -> bool) (ba : BridgeAcceptor)
  : BridgeAcceptor * bool :=
  if enabled ba then (ba, false)
  else if listen (acceptPort ba) then
    ({| acceptPort := acceptPort ba;
        sqlServerEndpoint := sqlServerEndpoint ba;
        enabled := true; listener := Some (acceptPort ba) |}, false)
  else
    ({| acceptPort := acceptPort ba;
        sqlServerEndpoint := sqlServerEndpoint ba;
        enabled := false; listener := listener ba |}, true).

Definition Stop (ba : BridgeAcceptor) : BridgeAcceptor :=
  if negb (enabled ba) then ba
  else {| acceptPort := acceptPort ba;
          sqlServerEndpoint := sqlServerEndpoint ba;
          enabled := false; listener := None |}.

(** What [main] does, as far as the outside can tell. *)
Inductive action : Type :=
| Println (line : text)
| PrintError (prefix : text)     (* Printf of prefix, error and newline *)
| Listening (ba : BridgeAcceptor)
| Scanln
| Stopped (ba : BridgeAcceptor).

Definition usage : list action :=
  [Println "TDSBridge <listen port> <sql server address> <sql server port>"].

Definition resolution_error : list action :=
  [PrintError "Error resolving SQL Server address"].

Definition start_error : list action :=
  [PrintError "Error starting bridge"].

(** The acceptor runs until [Scanln] returns, which its caller does not
    look at; then [Stop]. *)
Definition serve (bridgeAcceptor : BridgeAcceptor) : list action :=
  [Listening bridgeAcceptor;
   Println "Press enter to kill this process...";
   Scanln;
   Stopped (Stop bridgeAcceptor)].

(** [main]: its actions, and how it ends: [Ok tt] when it returns. *)
Definition main (env : Env) : list action * result unit :=
  if Go.len (Args env) <? 4 then (usage, Ok tt)
  else
    match (listenPort <- Go.index (Args env) 1 ;;
           sqlServerAddr <- Go.index (Args env) 2 ;;
           sqlServerPort <- Go.index (Args env) 3 ;;
           Ok (listenPort, sqlServerAddr, sqlServerPort)) with
    | Panic p => ([], Panic p)
    | Ok (listenPort, sqlServerAddr, sqlServerPort) =>
        match LookupHost env sqlServerAddr with
        | None =>
            (resolution_error, Ok tt)
        | Some iphe =>
            match Go.index iphe 0 with
            | Panic p => ([], Panic p)
            | Ok ip =>
                let bridgeAcceptor :=
                  NewBridgeAcceptor listenPort (ip, sqlServerPort) in
                let '(bridgeAcceptor, err) :=
                  Start (Listen env) bridgeAcceptor in
                if err then
                  (start_error, Ok tt)
                else
                  (serve bridgeAcceptor, Ok tt)
            end
        end
    end.

(** The exit status of a Go process: 0 when [main] returns, 2 when it
    ends in a panic nobody recovers. *)
Definition exit_code (r : list action * result unit) : Z :=
  match snd r with
  | Ok _ => 0
  | Panic _ => 2
  end.

(** The four ways a run can go, told by what the process finds. *)
Definition usage_display (env : Env) : Prop := Go.len (Args env) < 4.

Definition resolution_failure (env : Env) : Prop :=
  exists program listenPort sqlServerAddr sqlServerPort rest,
    Args env = program :: listenPort :: sqlServerAddr :: sqlServerPort
                 :: rest
    /\ LookupHost env sqlServerAddr = None.

Definition bind_failure (env : Env) : Prop :=
  exists program listenPort sqlServerAddr sqlServerPort rest ip ips,
    Args env = program :: listenPort :: sqlServerAddr :: sqlServerPort
                 :: rest
    /\ LookupHost env sqlServerAddr = Some (ip :: ips)
    /\ Listen env listenPort = false.

Definition graceful_shutdown (env : Env) : Prop :=
  exists program listenPort sqlServerAddr sqlServerPort rest ip ips,
    Args env = program :: listenPort :: sqlServerAddr :: sqlServerPort
                 :: rest
    /\ LookupHost env sqlServerAddr = Some (ip :: ips)
    /\ Listen env listenPort = true.

(** Three command lines: a host nobody resolves, a port somebody else
    holds, and a run that goes well. *)
Definition command_line : list text :=
  ["tdsbridge"; "1433"; "sqlhost"; "1433"].

Definition env_unresolved : Env :=
  {| Args := command_line;
     LookupHost := fun _ => None;
     Listen := fun _ => true |}.

Definition env_port_taken : Env :=
  {| Args := command_line;
     LookupHost := fun _ => Some ["192.168.1.111"];
     Listen := fun _ => false |}.

Definition env_fine : Env :=
  {| Args := command_line;
     LookupHost := fun _ => Some ["192.168.1.111"];
     Listen := fun _ => true |}.

Definition env_no_arguments : Env :=
  {| Args := ["tdsbridge"];
     LookupHost := fun _ => None;
     Listen := fun _ => false |}.

End Main.

(* ===================================================================== *)
(** * The wire formats, as the specification words them *)
(* ===================================================================== *)

(** These definitions follow the specification, not the code; the theorems
    below compare the code with them. *)
Module Wire.

(** The length an ALL_HEADERS block declares: its first four bytes, read
    as a little-endian number. *)
Definition all_headers_length (payload : list byte) : Z :=
  le_combine (firstn 4 payload).

(** A well-formed ALL_HEADERS block: its first four bytes give, in
    little-endian order, the length of the whole block, themselves
    included. *)
Definition well_formed_all_headers (block : list byte) : Prop :=
  4 <= len block /\ all_headers_length block = len block.

(** The code units of UTF-16LE bytes: two bytes per unit, the low byte
    first.  A byte left alone at the end belongs to no unit. *)
Fixpoint utf16le_units (bs : list byte) : list Z :=
  match bs with
  | lo :: hi :: rest => le_combine [lo; hi] :: utf16le_units rest
  | _ => []
  end.

(** Text is a sequence of Unicode scalar values: code points up to
    U+10FFFF that are not surrogates. *)
Definition scalar_value (r : Z) : Prop :=
  0 <= r < 0xD800 \/ 0xE000 <= r <= 0x10FFFF.

(** The UTF-16 encoding of a scalar value: itself below U+10000, a high
    and a low surrogate from there on. *)
Definition utf16_units_of (r : Z) : list Z :=
  if r <? 0x10000 then [r]
  else [0xD800 + Z.land (Z.shiftr (r - 0x10000) 10) 0x3FF;
        0xDC00 + Z.land (r - 0x10000) 0x3FF].

(** [utf16le(S)] *)
Definition utf16le (S : list Z) : list byte :=
  flat_map (le_split 2) (flat_map utf16_units_of S).

(** The packets of one message, with their [TDSMessageReceived] at the
    end, as the observers are to see them. *)
Definition published (msg : TDSMessage) : list notification :=
  map NPacket (GetPackets msg) ++ [NMessage msg].

(** The last packet of a message, and no packet before it, has the
    end-of-message bit. *)
Definition eom (packet : TDSPacket) : bool :=
  match StatusBitMask (Header packet) with
  | Ok status => Z.land (byte.unsigned status) END_OF_MESSAGE =? END_OF_MESSAGE
  | Panic _ => false
  end.

Definition ends_at_last_packet (msg : TDSMessage) : Prop :=
  exists before last,
    GetPackets msg = before ++ [last]
    /\ forallb (fun p => negb (eom p)) before = true
    /\ eom last = true.

End Wire.

(* ===================================================================== *)
(** * Test vectors *)
(* ===================================================================== *)

Definition bytes (l : list Z) : list byte := map byte.of_Z l.

(** A SQLBatch header, end of message, twelve bytes in all. *)
Definition header_batch_12 : list byte := bytes [1; 1; 0; 12; 0; 0; 0; 0].

(** A header that declares seven bytes in all, fewer than a header has. *)
Definition header_length_7 : list byte := bytes [1; 1; 0; 7; 0; 0; 0; 0].

(** A client whose twelve-byte packet arrives in three segments: the
    header, half of the payload, the other half. *)
Definition client_in_segments : ClientSocket :=
  [Burst header_batch_12; Burst (bytes [0x41; 0]); Burst (bytes [0x42; 0])].

(** The same twelve bytes in one segment. *)
Definition client_in_one_segment : ClientSocket :=
  [Burst (header_batch_12 ++ bytes [0x41; 0; 0x42; 0])].

(** A message of two packets, and a client that sends them and then the
    first packet of a message it never ends. *)
Definition packet_first_half : TDSPacket :=
  {| Header := {| Buffer := bytes [1; 0; 0; 10; 0; 0; 0; 0] |};
     Payload := bytes [0x41; 0] |}.

Definition packet_second_half : TDSPacket :=
  {| Header := {| Buffer := bytes [1; 1; 0; 10; 0; 0; 0; 0] |};
     Payload := bytes [0x42; 0] |}.

Definition client_with_three_packets : ClientSocket :=
  [Burst (Buffer (Header packet_first_half));
   Burst (Payload packet_first_half);
   Burst (Buffer (Header packet_second_half));
   Burst (Payload packet_second_half);
   Burst (Buffer (Header packet_first_half));
   Burst (Payload packet_first_half)].

(** The loop at its entry, on the client with one segment. *)
Definition first_turn : Ingress :=
  {| st_client := client_in_one_segment; st_upstream := None;
     st_bBuffer := []; st_bHeader := repeat x00 8; st_tdsMessage := None |}.




(** The ALL_HEADERS block a client sends outside a transaction: 22 bytes
    in all, of which 18 are a transaction descriptor header. *)
Definition all_headers_22 : list byte :=
  bytes [22; 0; 0; 0;  18; 0; 0; 0;  2; 0;  0; 0; 0; 0; 0; 0; 0; 0;
         1; 0; 0; 0].

(** The text [S] followed by U+1F600. *)
Definition batch_text : list Z := [0x53; 0x1F600].

(** A SQLBatch message of two packets: the ALL_HEADERS block in the first,
    the text in the second. *)
Definition batch_message : BaseTDSMessage :=
  {| Packets :=
       [ {| Header := {| Buffer := bytes [1; 0; 0; 30; 0; 0; 0; 0] |};
            Payload := all_headers_22 |};
         {| Header := {| Buffer := bytes [1; 1; 0; 14; 0; 0; 0; 0] |};
            Payload := Wire.utf16le batch_text |} ] |}.

Definition packet_batch_12 : TDSPacket :=
  {| Header := {| Buffer := header_batch_12 |};
     Payload := bytes [0x41; 0; 0x42; 0] |}.

(* ===================================================================== *)
(** * The rest of pkg/header.go and pkg/packet.go *)
(* ===================================================================== *)

(** [GetByte]: zero outside the buffer. *)
Definition GetByte (h : TDSHeader) (idx : Z) : result byte :=
  if (idx >=? 0) && (idx <? len (Buffer h)) then index (Buffer h) idx
  else Ok x00.

(** [SetByte]: the header afterwards; nothing changes outside the
    buffer. *)
Definition SetByte (h : TDSHeader) (idx : Z) (value : byte)
  : result TDSHeader :=
  if (idx >=? 0) && (idx <? len (Buffer h)) then
    buffer <- store (Buffer h) idx value ;;
    Ok {| Buffer := buffer |}
  else Ok h.

(** [s[lo:hi]] *)
Definition slice_between {A} (s : list A) (lo hi : Z) : result (list A) :=
  if (0 <=? lo) && (lo <=? hi) && (hi <=? len s) then
    Ok (firstn (Z.to_nat (hi - lo)) (skipn (Z.to_nat lo) s))
  else Panic SliceBoundsOutOfRange.

Definition NewTDSPacketFromBuffer (buffer : list byte) : result TDSPacket :=
  header <- NewTDSHeader buffer ;;
  payloadSize <- PayloadSize header ;;
  payload <- make x00 payloadSize ;;
  if len buffer >=? HEADER_SIZE + payloadSize then
    src <- slice_between buffer HEADER_SIZE (HEADER_SIZE + payloadSize) ;;
    Ok {| Header := header; Payload := copy payload src |}
  else Ok {| Header := header; Payload := payload |}.

(** The dynamic type of a message. *)
Inductive message_kind : Set :=
| KindDefault | KindSQLBatch | KindRPCRequest | KindAttention.

Definition kind_of (m : TDSMessage) : message_kind :=
  match m with
  | DefaultTDSMessage _ => KindDefault
  | SQLBatchMessage _ => KindSQLBatch
  | RPCRequestMessage _ => KindRPCRequest
  | AttentionMessage _ => KindAttention
  end.

(* ===================================================================== *)
(** * pkg/connection.go: the egress loop *)
(* ===================================================================== *)

(** In [sqlServerToClientBridge] the sockets change roles: the SQL Server
    socket is read, a stream of arrivals, and the client socket is
    written. *)
Definition SQLSocket := list arrival.
Definition ClientSink := option nat.

Inductive egress_event : Type :=
| SQLRead (requested : Z) (got : list byte) (err : option error)
| ClientWrite (b : list byte) (err : option error)
| Published (ev : event).

(** The [for] loop of [sqlServerToClientBridge]; [fuel] bounds the number
    of turns. *)
Fixpoint egress_loop (fuel : nat) (sql : SQLSocket) (client : ClientSink)
  (bBuffer : list byte) : list egress_event * option exit :=
  match fuel with
  | O => ([], None)
  | S fuel' =>
      let '(bBuffer', n, err, sql') := Read sql bBuffer in
      let read := SQLRead (len bBuffer) (firstn (Z.to_nat n) bBuffer') err in
      if is_err err || (n =? 0) then
        ([read; Published (BridgeException BridgeSQL err)], Some Returned)
      else
        match slice_to bBuffer' n with
        | Panic p => ([read], Some (Panicked p))
        | Ok out =>
            let '(err, client') := Write client out in
            if is_err err then
              ([read; ClientWrite out err;
                Published (BridgeException BridgeSQL err)], Some Returned)
            else
              let '(evs, r) := egress_loop fuel' sql' client' bBuffer' in
              (read :: ClientWrite out err :: evs, r)
        end
  end.

(** [sqlServerToClientBridge]: [bBuffer := make([]byte, 4096)], the loop,
    and the deferred [bc.onConnectionDisconnected(BridgeSQL)]. *)
Definition sqlServerToClientBridge (fuel : nat)
  (couple : SQLSocket * ClientSink) : list egress_event * option exit :=
  match make x00 4096 with
  | Ok bBuffer =>
      match egress_loop fuel (fst couple) (snd couple) bBuffer with
      | (evs, Some e) =>
          (evs ++ [Published (ConnectionDisconnected BridgeSQL)], Some e)
      | (evs, None) => (evs, None)
      end
  | Panic p =>
      ([Published (ConnectionDisconnected BridgeSQL)], Some (Panicked p))
  end.

(** The bytes the egress loop took from SQL Server and the bytes it handed
    to the client, in order. *)
Fixpoint egress_read (tr : list egress_event) : list byte :=
  match tr with
  | [] => []
  | SQLRead _ got _ :: tr' => got ++ egress_read tr'
  | _ :: tr' => egress_read tr'
  end.

Fixpoint egress_written (tr : list egress_event) : list byte :=
  match tr with
  | [] => []
  | ClientWrite b None :: tr' => b ++ egress_written tr'
  | _ :: tr' => egress_written tr'
  end.

(** The bytes a socket delivers before its first failure, end of stream
    or empty read. *)
Fixpoint stream_bytes (conn : list arrival) : list byte :=
  match conn with
  | Burst (b :: bs) :: rest => (b :: bs) ++ stream_bytes rest
  | _ => []
  end.

(** An event other than the [ConnectionDisconnected] of the ingress
    side. *)
Definition not_disconnected (ev : event) : bool :=
  match ev with
  | ConnectionDisconnected _ => false
  | _ => true
  end.

(* ===================================================================== *)
(** * pkg/connection.go: calls to [Start] and [Stop] in a row *)
(* ===================================================================== *)

(** A call to the acceptor: [Start], with whether the port can be bound at
    that moment, or [Stop]. *)
Inductive acceptor_call : Set :=
| CallStart (bound : bool)
| CallStop.

Definition acceptor_step (ba : Main.BridgeAcceptor) (c : acceptor_call)
  : Main.BridgeAcceptor :=
  match c with
  | CallStart bound => fst (Main.Start (fun _ => bound) ba)
  | CallStop => Main.Stop ba
  end.

Definition acceptor_run (ba : Main.BridgeAcceptor)
  (calls : list acceptor_call) : Main.BridgeAcceptor :=
  fold_left acceptor_step calls ba.

(** A computation that publishes no [ConnectionDisconnected], and whose
    [return] comes right after a [BridgeException] of the ingress side. *)
Definition reported {A} (c : M A) : Prop :=
  forallb not_disconnected (fst c) = true
  /\ (snd c = inr Returned ->
      exists evs err, fst c = evs ++ [BridgeException ClientBridge err]).

(** The loop after its first turn on the client with one segment. *)
Definition second_turn : Ingress :=
  match snd (iteration first_turn) with
  | inl s' => s'
  | inr _ => first_turn
  end.

(** The loop at its entry, on a client that sends the header declaring
    seven bytes. *)
Definition turn_on_short_length : Ingress :=
  {| st_client := [Burst header_length_7]; st_upstream := None;
     st_bBuffer := []; st_bHeader := repeat x00 8; st_tdsMessage := None |}.

(* ===================================================================== *)
(** * Facts about the runtime fragment *)
(* ===================================================================== *)

Section Runtime.

Context {A : Type}.
Implicit Types (s dst src : list A) (n i : Z).

Lemma Ok_inj (a b : A) : Ok a = Ok b -> a = b.
Proof. congruence. Qed.

Lemma len_nonneg s : 0 <= len s.
Proof. unfold len. lia. Qed.

Lemma len_app s1 s2 : len (s1 ++ s2) = len s1 + len s2.
Proof. unfold len. rewrite length_app. lia. Qed.

Lemma make_ok (zero : A) n :
  0 <= n -> make zero n = Ok (repeat zero (Z.to_nat n)).
Proof.
  intros Hn. unfold make.
  destruct (n <? 0) eqn:E; [apply Z.ltb_lt in E; lia | reflexivity].
Qed.

Lemma make_panics (zero : A) n :
  n < 0 -> make zero n = Panic MakesliceLenOutOfRange.
Proof.
  intros Hn. unfold make. apply Z.ltb_lt in Hn. now rewrite Hn.
Qed.

Lemma slice_to_ok s n :
  0 <= n <= len s -> slice_to s n = Ok (firstn (Z.to_nat n) s).
Proof.
  intros [H0 H1]. unfold slice_to.
  apply Z.leb_le in H0, H1. now rewrite H0, H1.
Qed.

Lemma slice_from_ok s n :
  0 <= n <= len s -> slice_from s n = Ok (skipn (Z.to_nat n) s).
Proof.
  intros [H0 H1]. unfold slice_from.
  apply Z.leb_le in H0, H1. now rewrite H0, H1.
Qed.

Lemma index_ok s i a :
  nth_error s (Z.to_nat i) = Some a -> 0 <= i -> index s i = Ok a.
Proof.
  intros Hnth Hi. unfold index.
  assert (Hlt : (Z.to_nat i < length s)%nat)
    by (apply nth_error_Some; congruence).
  replace (0 <=? i) with true by (symmetry; apply Z.leb_le; lia).
  replace (i <? len s) with true
    by (symmetry; apply Z.ltb_lt; unfold len; lia).
  cbn. now rewrite Hnth.
Qed.

Lemma index_in_range s i :
  0 <= i < len s -> exists a, index s i = Ok a
                              /\ nth_error s (Z.to_nat i) = Some a.
Proof.
  intros Hi.
  destruct (nth_error s (Z.to_nat i)) as [a|] eqn:E.
  - exists a. split; [apply index_ok; [assumption | lia] | reflexivity].
  - apply nth_error_None in E. unfold len in Hi. lia.
Qed.

Lemma firstn_whole (n : Z) s :
  len (firstn (Z.to_nat n) s) = len s -> firstn (Z.to_nat n) s = s.
Proof.
  unfold len. rewrite length_firstn. intros H.
  apply firstn_all2. lia.
Qed.

Lemma copy_all dst src :
  length dst = length src -> copy dst src = src.
Proof.
  intros H. unfold copy. rewrite (skipn_all2 dst) by lia.
  rewrite H, firstn_all. apply app_nil_r.
Qed.

Lemma length_copy dst src : length (copy dst src) = length dst.
Proof.
  unfold copy. rewrite length_app, length_firstn, length_skipn. lia.
Qed.

End Runtime.

(* ===================================================================== *)
(** * Header and packet codec *)
(* ===================================================================== *)

Section Codec.

Implicit Types (buffer header payload : list byte) (h : TDSHeader).

(** What [NewTDSHeader] stores: the first eight bytes of a buffer that has
    them, eight zero bytes otherwise. *)
Lemma NewTDSHeader_eq buffer :
  NewTDSHeader buffer =
  Ok {| Buffer := if len buffer >=? HEADER_SIZE then firstn 8 buffer
                  else repeat x00 8 |}.
Proof.
  unfold NewTDSHeader, HEADER_SIZE. cbn [make Z.ltb Z.compare bind].
  destruct (len buffer >=? 8) eqn:E; [| reflexivity].
  apply Z.geb_le in E.
  rewrite slice_to_ok by (pose proof (len_nonneg buffer); lia).
  cbn [bind]. do 2 f_equal.
  apply copy_all. change (Z.to_nat 8) with 8%nat.
  rewrite length_firstn, repeat_length. unfold len in E. lia.
Qed.

Lemma NewTDSHeader_length buffer h :
  NewTDSHeader buffer = Ok h -> length (Buffer h) = 8%nat.
Proof.
  rewrite NewTDSHeader_eq. intros Heq.
  apply Ok_inj in Heq. subst h. cbn [Buffer].
  destruct (len buffer >=? HEADER_SIZE) eqn:E.
  - apply Z.geb_le in E. unfold len, HEADER_SIZE in E.
    rewrite length_firstn. lia.
  - apply repeat_length.
Qed.

(** On the header of eight bytes that comes in whole, the header keeps
    these very bytes. *)
Lemma NewTDSHeader_whole buffer :
  length buffer = 8%nat -> NewTDSHeader buffer = Ok {| Buffer := buffer |}.
Proof.
  intros H. rewrite NewTDSHeader_eq.
  replace (len buffer >=? HEADER_SIZE) with true
    by (unfold len, HEADER_SIZE; now rewrite H).
  now rewrite <- H, firstn_all.
Qed.

(** The accessors cannot fail on a header of eight bytes. *)
Lemma header_fields h :
  length (Buffer h) = 8%nat ->
  exists t st lih,
    Type_ h = Ok t /\ StatusBitMask h = Ok st
    /\ LengthIncludingHeader h = Ok lih /\ PayloadSize h = Ok (lih - 8)
    /\ 0 <= t < 256 /\ 0 <= lih < 65536.
Proof.
  intros H. destruct h as [b]. cbn [Buffer] in H.
  destruct b as [|b0 [|b1 [|b2 [|b3 [|b4 [|b5 [|b6 [|b7 [|]]]]]]]]];
    try discriminate.
  exists (byte.unsigned b0), b1, (byte.unsigned b2 * 256 + byte.unsigned b3).
  pose proof (byte.unsigned_range b0).
  pose proof (byte.unsigned_range b2).
  pose proof (byte.unsigned_range b3).
  repeat split; try reflexivity; lia.
Qed.

(** [NewTDSPacket] ends in a panic exactly on a negative size. *)
Lemma NewTDSPacket_negative header payload payloadSize :
  payloadSize < 0 ->
  NewTDSPacket header payload payloadSize = Panic MakesliceLenOutOfRange.
Proof.
  intros H. unfold NewTDSPacket. rewrite NewTDSHeader_eq. cbn [bind].
  now rewrite make_panics.
Qed.

Lemma NewTDSPacket_eq header payload payloadSize :
  0 <= payloadSize ->
  NewTDSPacket header payload payloadSize =
  Ok {| Header := {| Buffer := if len header >=? HEADER_SIZE
                               then firstn 8 header else repeat x00 8 |};
        Payload := if len payload >=? payloadSize
                   then firstn (Z.to_nat payloadSize) payload
                   else repeat x00 (Z.to_nat payloadSize) |}.
Proof.
  intros H. unfold NewTDSPacket. rewrite NewTDSHeader_eq. cbn [bind].
  rewrite make_ok by assumption. cbn [bind].
  destruct (len payload >=? payloadSize) eqn:E; [| reflexivity].
  apply Z.geb_le in E. rewrite slice_to_ok by lia. cbn [bind].
  do 2 f_equal. apply copy_all.
  rewrite length_firstn, repeat_length. unfold len in E. lia.
Qed.

Lemma NewTDSPacket_inv header payload payloadSize P :
  NewTDSPacket header payload payloadSize = Ok P ->
  0 <= payloadSize
  /\ NewTDSHeader header = Ok (Header P)
  /\ len (Payload P) = payloadSize.
Proof.
  intros HP.
  destruct (Z.ltb_spec payloadSize 0) as [Hneg | Hpos].
  - rewrite NewTDSPacket_negative in HP by assumption. discriminate.
  - rewrite NewTDSPacket_eq in HP by assumption.
    apply Ok_inj in HP. subst P. cbn [Header Payload].
    split; [assumption |]. split; [now rewrite NewTDSHeader_eq |].
    destruct (len payload >=? payloadSize) eqn:E; unfold len.
    + apply Z.geb_le in E. unfold len in E. rewrite length_firstn. lia.
    + rewrite repeat_length. lia.
Qed.

End Codec.

(** C5.  Every packet that [NewTDSPacket] builds from a header buffer and
    the payload size this header declares has a payload of
    [LengthIncludingHeader() - 8] bytes. *)
Theorem C5_payload_length_is_declared_size
  (header payload : list byte) (h : TDSHeader) (payloadSize : Z)
  (P : TDSPacket) :
  NewTDSHeader header = Ok h ->
  PayloadSize h = Ok payloadSize ->
  NewTDSPacket header payload payloadSize = Ok P ->
  exists lih,
    LengthIncludingHeader (Header P) = Ok lih
    /\ len (Payload P) = lih - 8.
Proof.
  intros Hh Hsize HP.
  apply NewTDSPacket_inv in HP. destruct HP as (_ & Hh' & Hlen).
  rewrite Hh in Hh'. apply Ok_inj in Hh'. subst h.
  unfold PayloadSize in Hsize.
  destruct (LengthIncludingHeader (Header P)) as [lih |]; [| discriminate].
  cbn [bind] in Hsize. apply Ok_inj in Hsize.
  exists lih. split; [reflexivity |]. unfold HEADER_SIZE in Hsize. lia.
Qed.

Lemma C5_witness :
  NewTDSPacket header_batch_12 (bytes [0x41; 0; 0x42; 0; 9; 9]) 4
    = Ok packet_batch_12
  /\ exists lih,
       LengthIncludingHeader (Header packet_batch_12) = Ok lih
       /\ len (Payload packet_batch_12) = lih - 8.
Proof.
  split; [reflexivity |].
  apply (C5_payload_length_is_declared_size
           header_batch_12 (bytes [0x41; 0; 0x42; 0; 9; 9])
           {| Buffer := header_batch_12 |} 4 packet_batch_12);
    reflexivity.
Defined.

(** [NewTDSHeader] never fails, whatever the buffer. *)
Lemma NewTDSHeader_total (buffer : list byte) :
  exists h, NewTDSHeader buffer = Ok h.
Proof. eexists. apply NewTDSHeader_eq. Qed.

(** C6, at the input where the code departs from it.  The header
    [01 01 00 07 00 00 00 00] declares seven bytes in all; [NewTDSHeader]
    takes it, its payload size is -1, and [NewTDSPacket] with this size ends
    in the panic of [make]. *)
Theorem C6_short_length_header_panics :
  NewTDSHeader header_length_7 = Ok {| Buffer := header_length_7 |}
  /\ PayloadSize {| Buffer := header_length_7 |} = Ok (-1)
  /\ (forall payload,
        NewTDSPacket header_length_7 payload (-1)
        = Panic MakesliceLenOutOfRange).
Proof.
  split; [reflexivity |]. split; [reflexivity |].
  intros payload. apply NewTDSPacket_negative. lia.
Qed.

(** C8.  The message made from a first packet is a SQLBatch message when
    the type of its header is 1, an RPC request when it is 3, an attention
    message when it is 6 and a default message otherwise; in every case its
    packets are this one packet. *)
Theorem C8_classification_by_first_packet
  (firstPacket : TDSPacket) (t : HeaderType) :
  Type_ (Header firstPacket) = Ok t ->
  CreateTDSMessageFromFirstPacket firstPacket =
  Ok (if t =? 1 then SQLBatchMessage {| Packets := [firstPacket] |}
      else if t =? 3 then RPCRequestMessage {| Packets := [firstPacket] |}
      else if t =? 6 then AttentionMessage {| Packets := [firstPacket] |}
      else DefaultTDSMessage {| Packets := [firstPacket] |}).
Proof.
  intros Ht. unfold CreateTDSMessageFromFirstPacket. rewrite Ht. cbn [bind].
  unfold SQLBatch, AttentionSignal, RPC.
  destruct (Z.eqb_spec t 1) as [-> | H1]; [reflexivity |].
  destruct (Z.eqb_spec t 6) as [-> | H6]; [reflexivity |].
  destruct (Z.eqb_spec t 3) as [-> | H3]; reflexivity.
Qed.

Lemma C8_witness :
  Type_ (Header packet_batch_12) = Ok 1
  /\ CreateTDSMessageFromFirstPacket packet_batch_12
     = Ok (SQLBatchMessage {| Packets := [packet_batch_12] |}).
Proof.
  split; [reflexivity |].
  apply (C8_classification_by_first_packet packet_batch_12 1).
  reflexivity.
Defined.

(** C10.  A message without packets is not complete and has no ignore bit,
    and neither question ends in a panic. *)
Theorem C10_no_packets_no_panic (m : TDSMessage) :
  GetPackets m = [] ->
  IsComplete m = Ok false /\ HasIgnoreBitSet m = Ok false.
Proof.
  unfold GetPackets, IsComplete, HasIgnoreBitSet, Base_IsComplete,
    Base_HasIgnoreBitSet, last_status_has.
  intros ->. split; reflexivity.
Qed.

Lemma C10_witness :
  GetPackets NewSQLBatchMessage = []
  /\ IsComplete NewSQLBatchMessage = Ok false
  /\ HasIgnoreBitSet NewSQLBatchMessage = Ok false.
Proof.
  split; [reflexivity |].
  apply (C10_no_packets_no_panic NewSQLBatchMessage). reflexivity.
Defined.

(* ===================================================================== *)
(** * Message payloads and the batch text *)
(* ===================================================================== *)

Section BatchText.

Implicit Types (packets : list TDSPacket) (m : BaseTDSMessage).

Lemma le_combine_cons (b : byte) (bs : list byte) :
  le_combine (b :: bs) = byte.unsigned b + 256 * le_combine bs.
Proof.
  change (le_combine (b :: bs))
    with (Z.lor (byte.unsigned b) (Z.shiftl (le_combine bs) 8)).
  rewrite Z.or_to_plus.
  - rewrite Z.shiftl_mul_pow2 by lia. lia.
  - rewrite <- (byte.wrap_unsigned b). unfold byte.wrap.
    rewrite <- Z.land_ones by lia. Z.bitblast.
    rewrite (Z.testbit_neg_r _ l) by lia. apply andb_false_r.
Qed.

Lemma total_size packets (acc : Z) :
  fold_left (fun acc packet => acc + len (Payload packet)) packets acc
  = acc + len (concat (map Payload packets)).
Proof.
  revert acc. induction packets as [| p ps IH]; intros acc; cbn.
  - unfold len. cbn. lia.
  - rewrite IH, len_app. lia.
Qed.

(** The copying loop, started on a buffer whose room that is left is
    what the packets that are left need. *)
Lemma assemble_copy_fills packets :
  forall done room : list byte,
    len room = len (concat (map Payload packets)) ->
    assemble_copy packets (done ++ room) (len done)
    = Ok (done ++ concat (map Payload packets)).
Proof.
  induction packets as [| p ps IH]; intros done room Hroom.
  - cbn in *. unfold len in Hroom.
    destruct room; [reflexivity | discriminate].
  - cbn [assemble_copy map concat] in *. rewrite len_app in Hroom.
    pose proof (len_nonneg done). pose proof (len_nonneg (Payload p)).
    pose proof (len_nonneg (concat (map Payload ps))).
    rewrite slice_from_ok by (rewrite len_app; lia). cbn [bind].
    unfold len at 1 2. rewrite !Nat2Z.id.
    rewrite skipn_app, skipn_all, Nat.sub_diag, firstn_app, firstn_all,
      Nat.sub_diag.
    cbn [skipn firstn app]. rewrite app_nil_r.
    assert (Hcopy : copy room (Payload p)
                    = Payload p ++ skipn (length (Payload p)) room).
    { unfold copy. rewrite firstn_all2; [reflexivity |].
      unfold len in *. lia. }
    rewrite Hcopy, app_assoc, <- len_app.
    rewrite IH.
    + now rewrite <- app_assoc.
    + unfold len in *. rewrite length_skipn. lia.
Qed.

(** [AssemblePayload] is the concatenation of the payloads, in order. *)
Lemma Base_AssemblePayload_eq m :
  Base_AssemblePayload m = Ok (concat (map Payload (Packets m))).
Proof.
  unfold Base_AssemblePayload. rewrite total_size, Z.add_0_l.
  rewrite make_ok by apply len_nonneg. cbn [bind].
  apply (assemble_copy_fills (Packets m) []).
  unfold len. rewrite repeat_length. lia.
Qed.

(** [AllHeader.Length] reads the first four bytes as a little-endian
    number, and is zero on a payload that has not got four bytes. *)
Lemma AllHeader_Length_eq (payload : list byte) :
  AllHeader_Length (NewAllHeader payload)
  = Ok (if len payload >=? 4 then Wire.all_headers_length payload else 0).
Proof.
  unfold AllHeader_Length, NewAllHeader, Wire.all_headers_length.
  cbn [AllHeader_Payload].
  destruct (len payload >=? 4) eqn:E; [| reflexivity].
  apply Z.geb_le in E. unfold len in E.
  destruct payload as [| p0 [| p1 [| p2 [| p3 rest]]]];
    cbn [length] in E; try lia.
  rewrite (index_ok _ 3 p3), (index_ok _ 2 p2), (index_ok _ 1 p1),
    (index_ok _ 0 p0) by (reflexivity || lia).
  cbn [bind firstn]. rewrite !le_combine_cons.
  change (le_combine []) with 0.
  pose proof (byte.unsigned_range p0). pose proof (byte.unsigned_range p1).
  pose proof (byte.unsigned_range p2). pose proof (byte.unsigned_range p3).
  f_equal. unfold u32.
  rewrite (Z.mod_small (byte.unsigned p3 * _)) by lia.
  rewrite (Z.mod_small (byte.unsigned p2 * _)) by lia.
  rewrite (Z.mod_small (byte.unsigned p1 * _)) by lia.
  rewrite (Z.mod_small (byte.unsigned p0 * _)) by lia.
  rewrite (Z.mod_small (byte.unsigned p3 * _ + byte.unsigned p2 * _)) by lia.
  rewrite (Z.mod_small (_ + byte.unsigned p1 * _)) by lia.
  rewrite Z.mod_small by lia. lia.
Qed.

Lemma all_headers_length_range (payload : list byte) :
  0 <= Wire.all_headers_length payload < 2 ^ 32.
Proof.
  unfold Wire.all_headers_length.
  pose proof (le_combine_bound (firstn 4 payload)) as H.
  assert (Hlen : (length (firstn 4 payload) <= 4)%nat)
    by (rewrite length_firstn; lia).
  split; [lia |].
  eapply Z.lt_le_trans; [apply H |].
  apply Z.pow_le_mono_r; lia.
Qed.

(** The code unit the loop stores is the little-endian value of the two
    bytes. *)
Lemma code_unit_eq (lo hi : byte) :
  u16 (u16 (byte.unsigned lo) + u16 (Z.shiftl (u16 (byte.unsigned hi)) 8))
  = le_combine [lo; hi].
Proof.
  rewrite !le_combine_cons. change (le_combine []) with 0.
  pose proof (byte.unsigned_range lo). pose proof (byte.unsigned_range hi).
  unfold u16. rewrite (Z.mod_small (byte.unsigned hi)) by lia.
  rewrite Z.shiftl_mul_pow2 by lia.
  rewrite (Z.mod_small (byte.unsigned lo)) by lia.
  rewrite (Z.mod_small (byte.unsigned hi * _)) by lia.
  rewrite Z.mod_small by lia. lia.
Qed.

Lemma length_utf16le_units (bs : list byte) :
  length (Wire.utf16le_units bs) = Nat.div2 (length bs).
Proof.
  remember (length bs) as n eqn:Hn. revert bs Hn.
  induction n as [n IH] using (well_founded_induction Wf_nat.lt_wf).
  intros bs Hn. destruct bs as [| lo [| hi rest]]; subst n;
    try reflexivity.
  cbn [Wire.utf16le_units length Nat.div2]. f_equal.
  apply (IH (length rest)); [cbn; lia | reflexivity].
Qed.

(** The loop of [GetBatchText], started in the middle: [done] units are
    stored, they came from the bytes [pre], and [todo] units are to come
    from [rest]. *)
Lemma fill_utf16Runes_spec (todo : nat) :
  forall (pre rest : list byte) (done : list Z),
    length pre = (2 * length done)%nat ->
    (2 * todo <= length rest)%nat ->
    fill_utf16Runes (pre ++ rest) (done ++ repeat 0 todo) (len done) todo
    = Ok (done ++ firstn todo (Wire.utf16le_units rest)).
Proof.
  induction todo as [| todo IH]; intros pre rest done Hpre Hrest.
  - cbn. now rewrite app_nil_r.
  - destruct rest as [| lo [| hi rest]]; cbn [length] in Hrest; try lia.
    cbn [fill_utf16Runes].
    pose proof (len_nonneg done) as Hdone.
    rewrite (index_ok _ _ lo);
      [| rewrite nth_error_app2 by (unfold len; lia);
         replace (Z.to_nat (len done * 2) - length pre)%nat with 0%nat
           by (unfold len; lia); reflexivity
       | lia].
    rewrite (index_ok _ _ hi);
      [| rewrite nth_error_app2 by (unfold len; lia);
         replace (Z.to_nat (len done * 2 + 1) - length pre)%nat with 1%nat
           by (unfold len; lia); reflexivity
       | lia].
    cbn [bind]. rewrite code_unit_eq.
    unfold store.
    replace (0 <=? len done) with true by (symmetry; apply Z.leb_le; lia).
    replace (len done <? len (done ++ repeat 0 (S todo))) with true
      by (symmetry; apply Z.ltb_lt; rewrite len_app; unfold len; cbn; lia).
    cbn [andb bind repeat]. unfold len at 1 2. rewrite !Nat2Z.id.
    rewrite firstn_app, firstn_all, Nat.sub_diag. cbn [firstn].
    rewrite app_nil_r.
    replace (skipn (S (length done)) (done ++ 0 :: repeat 0 todo))
      with (repeat 0 todo)
      by (rewrite skipn_app, skipn_all2 by lia;
          replace (S (length done) - length done)%nat with 1%nat by lia;
          reflexivity).
    replace (len done + 1) with (len (done ++ [le_combine [lo; hi]]))
      by (rewrite len_app; reflexivity).
    replace (done ++ le_combine [lo; hi] :: repeat 0 todo)
      with ((done ++ [le_combine [lo; hi]]) ++ repeat 0 todo)
      by (now rewrite <- app_assoc).
    replace (pre ++ lo :: hi :: rest) with ((pre ++ [lo; hi]) ++ rest)
      by (now rewrite <- app_assoc).
    rewrite IH.
    + cbn [Wire.utf16le_units firstn]. now rewrite <- app_assoc.
    + rewrite !length_app. cbn [length]. lia.
    + lia.
Qed.

End BatchText.

(** What [GetBatchText] returns, for every payload and every length
    [headerLength] that [AllHeader.Length] may find. *)
Lemma GetBatchText_eq (m : BaseTDSMessage) :
  let payload := concat (map Payload (Packets m)) in
  let headerLength :=
    if len payload >=? 4 then Wire.all_headers_length payload else 0 in
  GetBatchText m =
  Ok (if len payload <=? headerLength then []
      else utf8.string_of_runes
             (utf16.Decode
                (Wire.utf16le_units
                   (skipn (Z.to_nat headerLength) payload)))).
Proof.
  intros payload headerLength. unfold GetBatchText.
  rewrite Base_AssemblePayload_eq. cbn [bind]. fold payload.
  rewrite AllHeader_Length_eq. cbn [bind]. fold headerLength.
  assert (Hh : 0 <= headerLength).
  { unfold headerLength. destruct (len payload >=? 4); [| lia].
    apply all_headers_length_range. }
  destruct (Z.leb_spec (len payload) headerLength) as [Hle | Hgt].
  - replace (len payload >? headerLength) with false; [reflexivity |].
    symmetry. rewrite Z.gtb_ltb. apply Z.ltb_ge. assumption.
  - replace (len payload >? headerLength) with true
      by (symmetry; rewrite Z.gtb_ltb; apply Z.ltb_lt; assumption).
    rewrite slice_from_ok by lia. cbn [bind].
    set (utf16Bytes := skipn (Z.to_nat headerLength) payload).
    assert (Hhalf : 0 <= len utf16Bytes / 2)
      by (apply Z.div_pos; [apply len_nonneg | lia]).
    rewrite make_ok by assumption. cbn [bind].
    unfold len at 2. rewrite repeat_length, Z2Nat.id by assumption.
    pose proof (fill_utf16Runes_spec (Z.to_nat (len utf16Bytes / 2))
                  [] utf16Bytes [] eq_refl) as Hfill.
    cbn [app len length Z.of_nat] in Hfill. rewrite Hfill.
    + cbn [bind]. rewrite firstn_all2; [reflexivity |].
      rewrite length_utf16le_units, Nat.div2_div.
      unfold len. rewrite <- (Nat2Z.inj_div _ 2), Nat2Z.id. lia.
    + apply Nat2Z.inj_le. rewrite Nat2Z.inj_mul, Z2Nat.id by assumption.
      unfold len. pose proof (Z.mul_div_le (Z.of_nat (length utf16Bytes)) 2).
      change (Z.of_nat 2) with 2. lia.
Qed.

(** C2.  [GetBatchText] on a SQLBatch message, complete or not: the
    payload is the payloads of the packets put together; when it is not
    longer than the ALL_HEADERS length its first four bytes give in
    little-endian order, the text is empty and nothing fails; otherwise the
    text is what UTF-16 decoding makes of the bytes from that offset on, two
    bytes per code unit, the low byte first.  A payload of fewer than four
    bytes has the ALL_HEADERS length zero. *)
Theorem C2_GetBatchText_decodes_after_all_headers (m : BaseTDSMessage) :
  exists payload headerLength,
    AssemblePayload (SQLBatchMessage m) = Ok payload
    /\ (4 <= len payload -> headerLength = Wire.all_headers_length payload)
    /\ (len payload < 4 -> headerLength = 0)
    /\ (len payload <= headerLength -> GetBatchText m = Ok [])
    /\ (headerLength < len payload ->
        GetBatchText m =
        Ok (utf8.string_of_runes
              (utf16.Decode
                 (Wire.utf16le_units
                    (skipn (Z.to_nat headerLength) payload))))).
Proof.
  pose proof (GetBatchText_eq m) as H. cbv zeta in H.
  set (payload := concat (map Payload (Packets m))) in *.
  exists payload,
    (if len payload >=? 4 then Wire.all_headers_length payload else 0).
  split; [apply Base_AssemblePayload_eq |].
  destruct (len payload >=? 4) eqn:E.
  - apply Z.geb_le in E.
    split; [reflexivity |]. split; [lia |].
    split; intros Hcmp; rewrite H.
    + apply Z.leb_le in Hcmp. now rewrite Hcmp.
    + apply Z.leb_gt in Hcmp. now rewrite Hcmp.
  - rewrite Z.geb_leb in E. apply Z.leb_gt in E.
    split; [lia |]. split; [reflexivity |].
    split; intros Hcmp; rewrite H.
    + apply Z.leb_le in Hcmp. now rewrite Hcmp.
    + apply Z.leb_gt in Hcmp. now rewrite Hcmp.
Qed.

Lemma C2_witness :
  GetBatchText batch_message
  = Ok (bytes [0x53; 0xF0; 0x9F; 0x98; 0x80]).
Proof.
  destruct (C2_GetBatchText_decodes_after_all_headers batch_message)
    as (payload & headerLength & Hpayload & Hdeclared & _ & _ & Htext).
  assert (Hvalue : payload = all_headers_22 ++ Wire.utf16le batch_text)
    by (apply Ok_inj; rewrite <- Hpayload; reflexivity).
  subst payload.
  assert (Hlength : headerLength = 22)
    by (rewrite Hdeclared; [reflexivity | vm_compute; discriminate]).
  subst headerLength.
  rewrite Htext; [reflexivity | vm_compute; reflexivity].
Defined.

(* ===================================================================== *)
(** * UTF-16: decoding what the encoding of a text gives *)
(* ===================================================================== *)

Section Utf16RoundTrip.

Lemma surrogates_range (x : Z) :
  0 <= x < 2 ^ 20 ->
  0 <= Z.land (Z.shiftr x 10) 0x3FF < 1024 /\ 0 <= Z.land x 0x3FF < 1024.
Proof.
  intros Hx. change 0x3FF with (Z.ones 10). rewrite !Z.land_ones by lia.
  split; apply Z.mod_pos_bound; lia.
Qed.

Lemma surrogates_join (x : Z) :
  0 <= x < 2 ^ 20 ->
  Z.lor (Z.shiftl (Z.land (Z.shiftr x 10) 0x3FF) 10) (Z.land x 0x3FF) = x.
Proof.
  intros Hx. change 0x3FF with (Z.ones 10).
  rewrite <- (Z.mod_small x (2 ^ 20)) at 3 by lia.
  rewrite <- (Z.land_ones x 20) by lia.
  Z.bitblast.
Qed.

(** Every code unit of the encoding of a scalar value fits in sixteen
    bits. *)
Lemma utf16_units_of_range (r : Z) :
  Wire.scalar_value r ->
  Forall (fun u => 0 <= u < 2 ^ 16) (Wire.utf16_units_of r).
Proof.
  intros Hr. unfold Wire.utf16_units_of, Wire.scalar_value in *.
  destruct (Z.ltb_spec r 0x10000) as [Hlow | Hhigh].
  - repeat constructor; lia.
  - destruct (surrogates_range (r - 0x10000)) as [Ha Hb]; [lia |].
    repeat constructor; lia.
Qed.

(** [Decode] gives back the scalar value whose encoding comes first. *)
Lemma Decode_utf16_units_of (r : Z) (rest : list Z) :
  Wire.scalar_value r ->
  utf16.Decode (Wire.utf16_units_of r ++ rest) = r :: utf16.Decode rest.
Proof.
  intros Hr. unfold Wire.utf16_units_of, Wire.scalar_value in *.
  destruct (Z.ltb_spec r 0x10000) as [Hlow | Hhigh].
  - cbn [app utf16.Decode]. unfold utf16.surr1, utf16.surr3.
    destruct (Z.ltb_spec r 0xd800); [reflexivity |].
    destruct (Z.leb_spec 0xe000 r); [reflexivity | lia].
  - destruct (surrogates_range (r - 0x10000)) as [Ha Hb]; [lia |].
    set (hi := 0xD800 + Z.land (Z.shiftr (r - 0x10000) 10) 0x3FF) in *.
    set (lo := 0xDC00 + Z.land (r - 0x10000) 0x3FF) in *.
    cbn [app utf16.Decode].
    unfold utf16.surr1, utf16.surr2, utf16.surr3.
    replace (hi <? 0xd800) with false by (symmetry; apply Z.ltb_ge; lia).
    replace (0xe000 <=? hi) with false by (symmetry; apply Z.leb_gt; lia).
    replace (0xd800 <=? hi) with true by (symmetry; apply Z.leb_le; lia).
    replace (hi <? 0xdc00) with true by (symmetry; apply Z.ltb_lt; lia).
    replace (0xdc00 <=? lo) with true by (symmetry; apply Z.leb_le; lia).
    replace (lo <? 0xe000) with true by (symmetry; apply Z.ltb_lt; lia).
    cbn [orb andb]. f_equal.
    unfold utf16.DecodeRune, utf16.surr1, utf16.surr2, utf16.surrSelf.
    replace (hi - 0xd800) with (Z.land (Z.shiftr (r - 0x10000) 10) 0x3FF)
      by (unfold hi; lia).
    replace (lo - 0xdc00) with (Z.land (r - 0x10000) 0x3FF)
      by (unfold lo; lia).
    rewrite surrogates_join by lia. lia.
Qed.

Lemma Decode_encoding (S : list Z) :
  Forall Wire.scalar_value S ->
  utf16.Decode (flat_map Wire.utf16_units_of S) = S.
Proof.
  induction 1 as [| r S Hr _ IH]; [reflexivity |].
  cbn [flat_map]. rewrite Decode_utf16_units_of by assumption.
  now rewrite IH.
Qed.

(** Two bytes per code unit, the low byte first: reading undoes
    writing. *)
Lemma utf16le_units_le_split (us : list Z) :
  Forall (fun u => 0 <= u < 2 ^ 16) us ->
  Wire.utf16le_units (flat_map (le_split 2) us) = us.
Proof.
  induction 1 as [| u us Hu _ IH]; [reflexivity |].
  cbn [flat_map]. change (le_split 2 u ++ flat_map (le_split 2) us)
    with (byte.of_Z u :: byte.of_Z (Z.shiftr u 8)
            :: flat_map (le_split 2) us).
  cbn [Wire.utf16le_units]. rewrite IH. f_equal.
  change [byte.of_Z u; byte.of_Z (Z.shiftr u 8)] with (le_split 2 u).
  rewrite le_combine_split. apply Z.mod_small.
  change (Z.of_nat 2 * 8) with 16. assumption.
Qed.

Lemma utf16le_round_trip (S : list Z) :
  Forall Wire.scalar_value S ->
  utf16.Decode (Wire.utf16le_units (Wire.utf16le S)) = S.
Proof.
  intros HS. unfold Wire.utf16le.
  rewrite utf16le_units_le_split; [now apply Decode_encoding |].
  induction HS as [| r S Hr _ IH]; [constructor |].
  cbn [flat_map]. apply Forall_app. split; [| assumption].
  now apply utf16_units_of_range.
Qed.

End Utf16RoundTrip.

(** C3.  A SQLBatch message whose assembled payload is a well-formed
    ALL_HEADERS block followed by the UTF-16LE encoding of a text [S] has
    the batch text [S], held as Go holds a text in a [string]. *)
Theorem C3_batch_text_round_trip
  (m : BaseTDSMessage) (all_headers : list byte) (S : list Z) :
  Wire.well_formed_all_headers all_headers ->
  Forall Wire.scalar_value S ->
  AssemblePayload (SQLBatchMessage m) = Ok (all_headers ++ Wire.utf16le S) ->
  GetBatchText m = Ok (utf8.string_of_runes S).
Proof.
  intros [Hfour Hdeclared] HS Hpayload.
  unfold AssemblePayload in Hpayload. cbn [base_of] in Hpayload.
  rewrite Base_AssemblePayload_eq in Hpayload. apply Ok_inj in Hpayload.
  rewrite GetBatchText_eq, Hpayload. cbv zeta.
  pose proof (len_nonneg (Wire.utf16le S)) as Htext.
  replace (len (all_headers ++ Wire.utf16le S) >=? 4) with true
    by (symmetry; apply Z.geb_le; rewrite len_app; lia).
  assert (Hlength : Wire.all_headers_length (all_headers ++ Wire.utf16le S)
                    = len all_headers).
  { unfold Wire.all_headers_length in *.
    rewrite firstn_app.
    replace (4 - length all_headers)%nat with 0%nat by (unfold len in *; lia).
    cbn [firstn]. now rewrite app_nil_r. }
  rewrite Hlength.
  replace (Z.to_nat (len all_headers)) with (length all_headers)
    by (unfold len; now rewrite Nat2Z.id).
  rewrite skipn_app, skipn_all, Nat.sub_diag. cbn [skipn app].
  rewrite utf16le_round_trip by assumption.
  destruct (Z.leb_spec (len (all_headers ++ Wire.utf16le S)) (len all_headers))
    as [Hempty | _]; [| reflexivity].
  rewrite len_app in Hempty.
  assert (Hnil : Wire.utf16le S = [])
    by (destruct (Wire.utf16le S); [reflexivity | unfold len in *; cbn in *; lia]).
  pose proof (utf16le_round_trip S HS) as Hback. rewrite Hnil in Hback.
  cbn in Hback. now subst S.
Qed.

Lemma C3_witness :
  GetBatchText batch_message = Ok (utf8.string_of_runes batch_text).
Proof.
  apply (C3_batch_text_round_trip batch_message all_headers_22 batch_text).
  - split; [vm_compute; discriminate | reflexivity].
  - repeat constructor; unfold Wire.scalar_value, batch_text; lia.
  - reflexivity.
Defined.

(* ===================================================================== *)
(** * The ingress loop, block by block *)
(* ===================================================================== *)

Section Events.

Lemma read_requests_app (a b : list event) :
  read_requests (a ++ b) = read_requests a ++ read_requests b.
Proof.
  induction a as [| [] a IH]; cbn; rewrite ?IH; reflexivity.
Qed.

Lemma writes_app (a b : list event) :
  writes (a ++ b) = writes a ++ writes b.
Proof.
  induction a as [| [] a IH]; cbn; rewrite ?IH; reflexivity.
Qed.

Lemma notifications_app (a b : list event) :
  notifications (a ++ b) = notifications a ++ notifications b.
Proof.
  induction a as [| [] a IH]; cbn; rewrite ?IH; reflexivity.
Qed.

Lemma bytes_read_app (a b : list event) :
  bytes_read (a ++ b) = bytes_read a ++ bytes_read b.
Proof.
  induction a as [| [] a IH]; cbn; rewrite ?IH, ?app_assoc; reflexivity.
Qed.

Lemma bytes_read_no_reads (evs : list event) :
  read_requests evs = [] -> bytes_read evs = [].
Proof.
  induction evs as [| [] evs IH]; cbn; try assumption; try reflexivity.
  discriminate.
Qed.

Lemma bytes_written_app (a b : list event) :
  bytes_written (a ++ b) = bytes_written a ++ bytes_written b.
Proof.
  induction a as [| [ | | | ? [] | | ] a IH]; cbn; rewrite ?IH, ?app_assoc;
    reflexivity.
Qed.

Lemma bytes_written_no_writes (evs : list event) :
  writes evs = [] -> bytes_written evs = [].
Proof.
  induction evs as [| [] evs IH]; cbn; try assumption; try reflexivity.
  discriminate.
Qed.

Context {A B : Type}.

Lemma mbind_ret (a : A) (k : A -> M B) : mbind (ret a) k = k a.
Proof. unfold ret, mbind. now destruct (k a). Qed.

(** How a sequence of two computations comes to its result. *)
Lemma mbind_inv (c : M A) (k : A -> M B) evs r :
  mbind c k = (evs, r) ->
  (exists e, c = (evs, inr e) /\ r = inr e)
  \/ (exists evs1 a evs2,
        c = (evs1, inl a) /\ k a = (evs2, r) /\ evs = evs1 ++ evs2).
Proof.
  destruct c as [evs1 [a | e]]; cbn [mbind].
  - destruct (k a) as [evs2 r2] eqn:Hk. intros H. inversion H; subst.
    right. exists evs1, a, evs2. repeat split. assumption.
  - intros H. inversion H; subst. left. now exists e.
Qed.

Lemma snd_mbind (c : M A) (k : A -> M B) :
  snd (mbind c k)
  = match snd c with
    | inl a => snd (k a)
    | inr e => inr e
    end.
Proof.
  destruct c as [evs [a | e]]; cbn [mbind snd]; [| reflexivity].
  now destruct (k a).
Qed.

End Events.

Section Sockets.

Lemma Read_inv conn b b' n err conn' :
  Read conn b = (b', n, err, conn') ->
  length b' = length b
  /\ 0 <= n <= len b
  /\ (pending_input conn' <= pending_input conn)%nat
  /\ (err = None -> len b <> 0 ->
      (pending_input conn' < pending_input conn)%nat).
Proof.
  unfold Read. pose proof (len_nonneg b) as Hb.
  destruct (Z.eqb_spec (len b) 0) as [Hz | Hnz].
  - intros H. inversion H; subst. repeat split; try lia.
  - destruct conn as [| [bs |] rest]; intros H; inversion H; subst;
      clear H; cbn [pending_input].
    + repeat split; try lia. discriminate.
    + assert (Hgot : (length (firstn (length b) bs) <= length b)%nat)
        by (rewrite length_firstn; lia).
      pose proof (length_skipn (length b) bs) as Hleft.
      destruct (skipn (length b) bs) as [| x left];
        cbn [pending_input length] in *;
        (split; [apply length_copy |]);
        unfold len in *; repeat split; try lia.
    + repeat split; lia.
Qed.

Lemma Read_prefix_inv conn buf hi :
  0 <= hi <= len buf ->
  exists buf' n err conn',
    Read_prefix conn buf hi = Ok (buf', n, err, conn')
    /\ length buf' = length buf
    /\ 0 <= n <= hi
    /\ (pending_input conn' <= pending_input conn)%nat.
Proof.
  intros Hhi. unfold Read_prefix. rewrite slice_to_ok by assumption.
  cbn [bind].
  destruct (Read conn (firstn (Z.to_nat hi) buf))
    as [[[view' n] err] conn'] eqn:Hread.
  apply Read_inv in Hread. destruct Hread as (Hlen & Hn & Hpend & _).
  exists (view' ++ skipn (Z.to_nat hi) buf), n, err, conn'.
  rewrite length_firstn in Hlen. unfold len in *.
  rewrite length_firstn in Hn.
  split; [reflexivity |].
  rewrite length_app, length_skipn.
  repeat split; try lia.
Qed.

End Sockets.

Section Blocks.

Implicit Types (header : TDSHeader) (bHeader bBuffer : list byte).

Lemma max_bounds (a b : Z) : a <= max a b /\ b <= max a b.
Proof.
  unfold max. rewrite Z.gtb_ltb.
  destruct (Z.ltb_spec b a); lia.
Qed.

Lemma receive_header_spec conn bHeader evs r :
  receive_header conn bHeader = (evs, r) ->
  read_requests evs = [len bHeader]
  /\ writes evs = []
  /\ notifications evs = []
  /\ match r with
     | inl (bHeader', conn') =>
         length bHeader' = length bHeader
         /\ (pending_input conn' < pending_input conn)%nat
         /\ exists got, evs = [ClientRead (len bHeader) got None]
     | inr e => e = Returned
     end.
Proof.
  unfold receive_header.
  destruct (Read conn bHeader) as [[[b' n] err] conn'] eqn:Hread.
  apply Read_inv in Hread. destruct Hread as (Hlen & Hn & _ & Hlt).
  unfold report_and_return, emit, return_, ret, mbind.
  destruct err as [e |]; cbn [is_err orb].
  - intros H. inversion H; subst. cbn. repeat split.
  - destruct (Z.eqb_spec n 0) as [-> | Hn0]; intros H; inversion H; subst;
      cbn; repeat split; try assumption.
    + apply Hlt; [reflexivity | lia].
    + eexists. reflexivity.
Qed.

Lemma ensure_buffer_spec header bBuffer lih :
  LengthIncludingHeader header = Ok lih ->
  exists bBuffer',
    ensure_buffer header bBuffer = ([], inl bBuffer')
    /\ 0x1000 <= len bBuffer' /\ lih < len bBuffer'.
Proof.
  intros Hlih. unfold ensure_buffer. rewrite Hlih.
  unfold lift, ret, mbind.
  pose proof (max_bounds 0x1000 (lih + 1)) as [Hfloor Hroom].
  destruct (is_nil bBuffer || (len bBuffer <? max 0x1000 (lih + 1)))
    eqn:Hsmall.
  - rewrite make_ok by lia. eexists. split; [reflexivity |].
    unfold len. rewrite repeat_length, Z2Nat.id by lia. lia.
  - apply orb_false_iff in Hsmall. destruct Hsmall as [_ Hlarge].
    apply Z.ltb_ge in Hlarge.
    exists bBuffer. split; [reflexivity | lia].
Qed.

Lemma client_Read_spec conn bBuffer hi :
  0 <= hi <= len bBuffer ->
  exists bBuffer' received err conn',
    client_Read conn bBuffer hi
    = ([ClientRead hi (firstn (Z.to_nat received) bBuffer') err],
       inl (bBuffer', received, err, conn'))
    /\ length bBuffer' = length bBuffer
    /\ 0 <= received <= hi
    /\ (pending_input conn' <= pending_input conn)%nat.
Proof.
  intros Hhi.
  destruct (Read_prefix_inv conn bBuffer hi Hhi)
    as (b' & n & err & conn' & Hread & Hlen & Hn & Hle).
  exists b', n, err, conn'. unfold client_Read. rewrite Hread.
  repeat split; assumption || lia.
Qed.

Lemma receive_payload_spec header conn bBuffer t lih evs r :
  Type_ header = Ok t ->
  LengthIncludingHeader header = Ok lih ->
  0x1000 <= len bBuffer -> lih < len bBuffer ->
  receive_payload header conn bBuffer = (evs, r) ->
  read_requests evs = payload_request t (lih - HEADER_SIZE)
  /\ writes evs = []
  /\ notifications evs = []
  /\ match r with
     | inl (bBuffer', received, conn') =>
         length bBuffer' = length bBuffer
         /\ 0 <= received <= len bBuffer'
         /\ (pending_input conn' <= pending_input conn)%nat
         /\ (t = 23 ->
             evs = [ClientRead (0x1000 - HEADER_SIZE)
                      (firstn (Z.to_nat received) bBuffer') None])
     | inr e => e = Returned
     end.
Proof.
  intros Ht Hlih Hfloor Hroom. unfold receive_payload, PayloadSize.
  rewrite Ht, Hlih. cbn [bind lift]. unfold payload_request, HEADER_SIZE.
  unfold ret at 1 2. cbn [mbind].
  destruct (t =? 23) eqn:E23; [| destruct (lih - 8 >? 0) eqn:Epos].
  - destruct (client_Read_spec conn bBuffer (0x1000 - 8))
      as (b' & n & err & conn' & -> & Hlen & Hn & Hle); [lia |].
    unfold report_and_return, emit, return_, ret, mbind.
    destruct err as [e |]; cbn [is_err]; intros H; inversion H; subst;
      cbn; repeat split; try assumption; unfold len in *; lia.
  - rewrite Z.gtb_ltb in Epos. apply Z.ltb_lt in Epos.
    destruct (client_Read_spec conn bBuffer (lih - 8))
      as (b' & n & err & conn' & -> & Hlen & Hn & Hle); [lia |].
    apply Z.eqb_neq in E23.
    unfold report_and_return, emit, return_, ret, mbind.
    destruct err as [e |]; cbn [is_err]; intros H; inversion H; subst;
      cbn; repeat split; try assumption; unfold len in *; lia.
  - apply Z.eqb_neq in E23.
    unfold report_and_return, emit, return_, ret, mbind. cbn [is_err].
    intros H; inversion H; subst.
    cbn; repeat split; try assumption; unfold len in *; lia.
Qed.

Lemma receive_header_read conn bHeader evs bHeader' conn' :
  receive_header conn bHeader = (evs, inl (bHeader', conn')) ->
  exists n, evs = [ClientRead (len bHeader)
                     (firstn (Z.to_nat n) bHeader') None].
Proof.
  unfold receive_header.
  destruct (Read conn bHeader) as [[[b' n] err] conn1].
  unfold report_and_return, emit, return_, ret, mbind.
  destruct err as [e |]; cbn [is_err orb]; [discriminate |].
  destruct (n =? 0); [discriminate |].
  intros H. inversion H; subst. now exists n.
Qed.

Lemma receive_payload_read header conn bBuffer t lih evs bBuffer' received conn' :
  Type_ header = Ok t ->
  LengthIncludingHeader header = Ok lih ->
  0x1000 <= len bBuffer -> lih < len bBuffer ->
  receive_payload header conn bBuffer = (evs, inl (bBuffer', received, conn')) ->
  evs = map (fun hi => ClientRead hi (firstn (Z.to_nat received) bBuffer') None)
          (payload_request t (lih - HEADER_SIZE))
  /\ (payload_request t (lih - HEADER_SIZE) = [] -> received = 0)
  /\ Forall (fun hi => 0 <= received <= hi) (payload_request t (lih - HEADER_SIZE)).
Proof.
  intros Ht Hlih Hfloor Hroom. unfold receive_payload, PayloadSize.
  rewrite Ht, Hlih. cbn [bind lift]. unfold payload_request, HEADER_SIZE.
  unfold ret at 1 2. cbn [mbind].
  destruct (t =? 23) eqn:E23; [| destruct (lih - 8 >? 0) eqn:Epos].
  - destruct (client_Read_spec conn bBuffer (0x1000 - 8))
      as (b' & n & err & conn1 & -> & Hlen & Hn & Hle); [lia |].
    unfold report_and_return, emit, return_, ret, mbind.
    destruct err as [e |]; cbn [is_err]; intros H; inversion H; subst.
    cbn. repeat split; try discriminate; try lia. repeat constructor; lia.
  - rewrite Z.gtb_ltb in Epos. apply Z.ltb_lt in Epos.
    destruct (client_Read_spec conn bBuffer (lih - 8))
      as (b' & n & err & conn1 & -> & Hlen & Hn & Hle); [lia |].
    unfold report_and_return, emit, return_, ret, mbind.
    destruct err as [e |]; cbn [is_err]; intros H; inversion H; subst.
    cbn. repeat split; try discriminate; try lia. repeat constructor; lia.
  - unfold report_and_return, emit, return_, ret, mbind. cbn [is_err].
    intros H; inversion H; subst. cbn. repeat split. constructor.
Qed.

Lemma CreateTDSMessageFromFirstPacket_packets (p : TDSPacket) t :
  Type_ (Header p) = Ok t ->
  exists msg,
    CreateTDSMessageFromFirstPacket p = Ok msg /\ GetPackets msg = [p].
Proof.
  intros Ht. unfold CreateTDSMessageFromFirstPacket. rewrite Ht.
  cbn [bind].
  destruct (t =? SQLBatch); [| destruct (t =? AttentionSignal);
                               [| destruct (t =? RPC)]];
    eexists; split; reflexivity.
Qed.

Lemma GetPackets_AddPacket (m : TDSMessage) (p : TDSPacket) :
  GetPackets (AddPacket m p) = GetPackets m ++ [p].
Proof. destruct m; reflexivity. Qed.

Lemma publish_spec header bHeader bBuffer cur t status lih evs r :
  NewTDSHeader bHeader = Ok header ->
  Type_ header = Ok t ->
  StatusBitMask header = Ok status ->
  LengthIncludingHeader header = Ok lih ->
  publish header bHeader bBuffer cur = (evs, r) ->
  read_requests evs = []
  /\ writes evs = []
  /\ ((lih - HEADER_SIZE < 0 /\ evs = []
       /\ r = inr (Panicked MakesliceLenOutOfRange))
      \/ (0 <= lih - HEADER_SIZE
          /\ exists p msg,
               Header p = header
               /\ GetPackets msg = in_progress cur ++ [p]
               /\ if Wire.eom p
                  then evs = [TDSPacketReceived p; TDSMessageReceived msg]
                       /\ r = inl None
                  else evs = [TDSPacketReceived p]
                       /\ r = inl (Some msg))).
Proof.
  intros Hh Ht Hst Hlih. unfold publish, PayloadSize. rewrite Hlih.
  cbn [bind lift]. unfold ret at 1. cbn [mbind].
  destruct (NewTDSPacket bHeader bBuffer (lih - HEADER_SIZE))
    as [p | e] eqn:HP.
  - apply NewTDSPacket_inv in HP. destruct HP as (Hpos & Hh' & Hlen).
    rewrite Hh in Hh'. apply Ok_inj in Hh'.
    assert (Hmsg : exists msg,
               match cur with
               | None => lift (CreateTDSMessageFromFirstPacket p)
               | Some m => ret (AddPacket m p)
               end = ([], inl msg)
               /\ GetPackets msg = in_progress cur ++ [p]).
    { destruct cur as [m |].
      - exists (AddPacket m p). split; [reflexivity |].
        apply GetPackets_AddPacket.
      - destruct (CreateTDSMessageFromFirstPacket_packets p t)
          as (msg & Hmake & Hpackets); [now rewrite <- Hh' |].
        exists msg. rewrite Hmake. split; [reflexivity | assumption]. }
    cbn [lift]. unfold ret at 1. cbn [mbind].
    destruct Hmsg as (msg & -> & Hpackets).
    assert (Heom : Wire.eom p
                   = (Z.land (byte.unsigned status) END_OF_MESSAGE
                      =? END_OF_MESSAGE))
      by (unfold Wire.eom; now rewrite <- Hh', Hst).
    rewrite Hst. unfold lift, emit, ret, mbind.
    intros H. split; [| split]; [| | right; split; [assumption |]].
    + destruct (Z.land _ _ =? _); inversion H; reflexivity.
    + destruct (Z.land _ _ =? _); inversion H; reflexivity.
    + exists p, msg. split; [now symmetry |]. split; [assumption |].
      rewrite Heom.
      destruct (Z.land _ _ =? _); inversion H; split; reflexivity.
  - destruct (Z.ltb_spec (lih - HEADER_SIZE) 0) as [Hneg | Hpos].
    + rewrite NewTDSPacket_negative in HP by assumption.
      apply (f_equal (fun c => match c with Panic q => q | Ok _ => e end))
        in HP. subst e.
      unfold lift, mbind. intros H. inversion H.
      split; [reflexivity |]. split; [reflexivity |]. left.
      repeat split. assumption.
    + rewrite NewTDSPacket_eq in HP by assumption. discriminate.
Qed.

Lemma forward_spec header bHeader bBuffer received conn t lih evs r :
  Type_ header = Ok t ->
  LengthIncludingHeader header = Ok lih ->
  0 <= received <= len bBuffer ->
  0 <= lih - HEADER_SIZE -> lih < len bBuffer ->
  forward header bHeader bBuffer received conn = (evs, r) ->
  let out :=
    firstn (Z.to_nat (if t =? 23 then received else lih - HEADER_SIZE))
      bBuffer in
  read_requests evs = []
  /\ notifications evs = []
  /\ (writes evs = [bHeader] \/ writes evs = [bHeader; out])
  /\ match r with
     | inl _ => bytes_written evs = bHeader ++ out
     | inr e => e = Returned
     end.
Proof.
  intros Ht Hlih Hreceived Hpos Hroom. unfold forward, upstream_Write.
  destruct (Write conn bHeader) as [err conn1].
  unfold report_and_return, emit, return_, ret. cbn [mbind app].
  destruct err as [e |]; cbn [is_err].
  - intros H. inversion H. cbn. repeat split. now left.
  - unfold PayloadSize. rewrite Ht, Hlih. cbn [bind lift].
    unfold ret. cbn [mbind app].
    assert (Hout : (if t =? 23 then slice_to bBuffer received
                    else slice_to bBuffer (lih - HEADER_SIZE))
                   = Ok (firstn (Z.to_nat (if t =? 23 then received
                                           else lih - HEADER_SIZE))
                           bBuffer)).
    { unfold HEADER_SIZE in *.
      destruct (t =? 23); apply slice_to_ok; lia. }
    rewrite Hout. cbn [lift]. unfold ret. cbn [mbind app].
    destruct (Write conn1 _) as [err conn2].
    unfold emit, ret. cbn [mbind app].
    destruct err as [e |]; cbn [is_err mbind app];
      intros H; inversion H; cbn; rewrite ?app_nil_r;
      repeat split; now right.
Qed.

(** [publish], by what [NewTDSPacket] returns. *)
Lemma publish_cases header bHeader bBuffer cur t status lih evs r :
  NewTDSHeader bHeader = Ok header ->
  Type_ header = Ok t ->
  StatusBitMask header = Ok status ->
  LengthIncludingHeader header = Ok lih ->
  publish header bHeader bBuffer cur = (evs, r) ->
  match NewTDSPacket bHeader bBuffer (lih - HEADER_SIZE) with
  | Ok p =>
      Header p = header
      /\ exists msg,
           GetPackets msg = in_progress cur ++ [p]
           /\ notifications evs
              = NPacket p :: (if Wire.eom p then [NMessage msg] else [])
           /\ r = inl (if Wire.eom p then None else Some msg)
  | Panic q => evs = [] /\ r = inr (Panicked q)
  end.
Proof.
  intros Hh Ht Hst Hlih. unfold publish, PayloadSize. rewrite Hlih.
  cbn [bind lift]. unfold ret at 1. cbn [mbind].
  destruct (NewTDSPacket bHeader bBuffer (lih - HEADER_SIZE))
    as [p | q] eqn:HP.
  - apply NewTDSPacket_inv in HP. destruct HP as (Hpos & Hh' & Hlen).
    rewrite Hh in Hh'. apply Ok_inj in Hh'.
    assert (Hmsg : exists msg,
               match cur with
               | None => lift (CreateTDSMessageFromFirstPacket p)
               | Some m => ret (AddPacket m p)
               end = ([], inl msg)
               /\ GetPackets msg = in_progress cur ++ [p]).
    { destruct cur as [m |].
      - exists (AddPacket m p). split; [reflexivity |].
        apply GetPackets_AddPacket.
      - destruct (CreateTDSMessageFromFirstPacket_packets p t)
          as (msg & Hmake & Hpackets); [now rewrite <- Hh' |].
        exists msg. rewrite Hmake. split; [reflexivity | assumption]. }
    cbn [lift]. unfold ret at 1. cbn [mbind].
    destruct Hmsg as (msg & -> & Hpackets).
    assert (Heom : Wire.eom p
                   = (Z.land (byte.unsigned status) END_OF_MESSAGE
                      =? END_OF_MESSAGE))
      by (unfold Wire.eom; now rewrite <- Hh', Hst).
    rewrite Hst. unfold lift, emit, ret, mbind.
    intros H. split; [now symmetry |].
    exists msg. split; [assumption |]. rewrite Heom.
    destruct (Z.land _ _ =? _); inversion H; split; reflexivity.
  - unfold lift, mbind. intros H. inversion H. split; reflexivity.
Qed.

(** [forward] tells the observers nothing. *)
Lemma forward_tells_nothing header bHeader bBuffer received conn :
  notifications (fst (forward header bHeader bBuffer received conn)) = [].
Proof.
  unfold forward, upstream_Write.
  destruct (Write conn bHeader) as [err conn1].
  unfold report_and_return, emit, return_, ret. cbn [mbind app].
  destruct err as [e |]; cbn [is_err]; [reflexivity |].
  destruct (Type_ header) as [t |]; cbn [lift mbind ret]; [| reflexivity].
  destruct (PayloadSize header) as [payloadSize |]; cbn [lift mbind ret];
    [| reflexivity].
  destruct (if t =? 23 then slice_to bBuffer received
            else slice_to bBuffer payloadSize) as [out |];
    cbn [lift mbind ret]; [| reflexivity].
  destruct (Write conn1 out) as [err conn2]. cbn [mbind app].
  destruct err as [e |]; reflexivity.
Qed.


End Blocks.

Section Turn.

(** The outcomes of one turn of the loop: no header; a header, and then
    no payload or the panic of [NewTDSPacket]; a packet published and
    forwarded as far as the upstream socket takes it. *)
Lemma iteration_inv s evs r :
  length (st_bHeader s) = 8%nat ->
  iteration s = (evs, r) ->
  (parsed_header s = None
   /\ read_requests evs = [8] /\ writes evs = [] /\ notifications evs = []
   /\ r = inr Returned)
  \/ exists header t status lih,
       parsed_header s = Some header
       /\ Type_ header = Ok t
       /\ StatusBitMask header = Ok status
       /\ LengthIncludingHeader header = Ok lih
       /\ read_requests evs = 8 :: payload_request t (lih - HEADER_SIZE)
       /\ ((writes evs = [] /\ notifications evs = []
            /\ (r = inr Returned
                \/ lih - HEADER_SIZE < 0
                   /\ r = inr (Panicked MakesliceLenOutOfRange)))
           \/ (0 <= lih - HEADER_SIZE
               /\ exists p msg out,
                    Header p = header
                    /\ GetPackets msg = in_progress (st_tdsMessage s) ++ [p]
                    /\ notifications evs
                       = NPacket p
                           :: (if Wire.eom p then [NMessage msg] else [])
                    /\ (writes evs = [Buffer header]
                        \/ writes evs = [Buffer header; out])
                    /\ (if t =? 23 then payload_read evs = Some out
                        else len out = lih - HEADER_SIZE)
                    /\ match r with
                       | inl s' =>
                           length (st_bHeader s') = 8%nat
                           /\ (pending_input (st_client s')
                               < pending_input (st_client s))%nat
                           /\ st_tdsMessage s'
                              = (if Wire.eom p then None else Some msg)
                           /\ bytes_written evs = Buffer header ++ out
                       | inr e => e = Returned
                       end)).
Proof.
  intros Hwf H. unfold iteration in H.
  assert (Hlen8 : len (st_bHeader s) = 8) by (unfold len; now rewrite Hwf).
  apply mbind_inv in H.
  destruct H as [(e & Hh & ->)
                | (evsH & [bHeader client] & evs2 & Hh & H & ->)].
  { left. unfold parsed_header. rewrite Hh.
    apply receive_header_spec in Hh. destruct Hh as (Hr & Hw & Hn & ->).
    rewrite Hlen8 in Hr. repeat split; assumption. }
  right.
  pose proof (receive_header_spec _ _ _ _ Hh)
    as (Hr & Hw & Hn & Hlen & Hpend & got & ->).
  assert (Hheader : NewTDSHeader bHeader = Ok {| Buffer := bHeader |})
    by (apply NewTDSHeader_whole; congruence).
  rewrite Hheader in H. cbn [lift] in H.
  set (header := {| Buffer := bHeader |}) in *.
  destruct (header_fields header) as (t & st & lih & Ht & Hst & Hlih & _ & _ & _);
    [cbn; congruence |].
  exists header, t, st, lih.
  split; [unfold parsed_header; now rewrite Hh, Hheader |].
  do 3 (split; [assumption |]).
  unfold ret in H at 1. fold (@ret TDSHeader header) in H.
  rewrite mbind_ret in H.
  destruct (ensure_buffer_spec header (st_bBuffer s) lih Hlih)
    as (bBuffer & Hensure & Hfloor & Hroom).
  rewrite Hensure in H. fold (@ret (list byte) bBuffer) in H.
  rewrite mbind_ret in H.
  rewrite read_requests_app, writes_app, notifications_app, Hr, Hw, Hn,
    Hlen8.
  cbn [app].
  apply mbind_inv in H.
  destruct H as [(e & Hp & ->)
                | (evsP & [[bBuffer' received] client'] & evs3
                   & Hp & H & ->)].
  { apply (receive_payload_spec _ _ _ t lih) in Hp; try assumption.
    destruct Hp as (Hr' & Hw' & Hn' & ->).
    split; [now rewrite Hr' |]. left. repeat split; try assumption.
    now left. }
  pose proof (receive_payload_spec _ _ _ t lih _ _ Ht Hlih Hfloor Hroom Hp)
    as (Hr' & Hw' & Hn' & Hlen' & Hreceived & Hpend' & H23).
  rewrite read_requests_app, writes_app, notifications_app, Hr', Hw', Hn'.
  cbn [app].
  apply mbind_inv in H.
  destruct H as [(e & Hn2 & ->) | (evsN & tdsMessage & evs4 & Hn2 & H & ->)].
  { apply (publish_spec _ _ _ _ t st lih) in Hn2; try assumption.
    destruct Hn2 as (Hr2 & Hw2 & [(Hneg & -> & He) | (Hpos & p & msg & _ & _ & Hev)]).
    - injection He as ->.
      split; [now rewrite app_nil_r |]. left. repeat split.
      right. split; [assumption | reflexivity].
    - destruct (Wire.eom p); destruct Hev as [_ Hev]; discriminate. }
  pose proof (publish_spec _ _ _ _ t st lih _ _ Hheader Ht Hst Hlih Hn2)
    as (Hr2 & Hw2 & [(_ & _ & He) | (Hpos & p & msg & Hp_header & Hpackets & Hev)]);
    [discriminate |].
  rewrite read_requests_app, writes_app, notifications_app, Hr2, Hw2.
  cbn [app].
  assert (Hroom' : lih < len bBuffer') by (unfold len in *; lia).
  set (out := firstn (Z.to_nat (if t =? 23 then received
                                else lih - HEADER_SIZE)) bBuffer').
  assert (Hnotes : notifications evsN
                   = NPacket p :: (if Wire.eom p then [NMessage msg] else [])
                     /\ tdsMessage = if Wire.eom p then None else Some msg).
  { destruct (Wire.eom p); destruct Hev as [-> Hev]; inversion Hev;
      split; reflexivity. }
  destruct Hnotes as [Hnotes Hmessage].
  assert (Hout : if t =? 23
                 then payload_read (ClientRead 8 got None :: evsP ++ evsN ++ evs4) = Some out
                 else len out = lih - HEADER_SIZE).
  { unfold out. destruct (Z.eqb_spec t 23) as [-> | Hne].
    - rewrite (H23 eq_refl). reflexivity.
    - unfold len. rewrite length_firstn.
      unfold len, HEADER_SIZE in *. lia. }
  apply mbind_inv in H.
  destruct H as [(e & Hf & ->) | (evsF & upstream & evs5 & Hf & H & ->)].
  { apply (forward_spec _ _ _ _ _ t lih) in Hf; try assumption.
    cbv zeta in Hf. destruct Hf as (Hr3 & Hn3 & Hw3 & ->).
    rewrite Hr3, Hn3. split; [now rewrite app_nil_r |]. right.
    split; [assumption |]. exists p, msg, out.
    rewrite app_nil_r. repeat split; try assumption. }
  pose proof (forward_spec _ _ _ _ _ t lih _ _ Ht Hlih Hreceived Hpos Hroom' Hf)
    as Hf'.
  cbv zeta in Hf'. destruct Hf' as (Hr3 & Hn3 & Hw3 & Hbytes).
  unfold ret in H. inversion H; subst evs5 r. clear H.
  rewrite !app_nil_r in *. rewrite Hr3, Hn3.
  split; [now rewrite app_nil_r |]. right.
  split; [assumption |]. exists p, msg, out.
  rewrite app_nil_r. repeat split; try assumption.
  - cbn [st_bHeader]. congruence.
  - cbn [st_client]. lia.
  - change (ClientRead 8 got None :: evsP ++ evsN ++ evsF)
      with ([ClientRead 8 got None] ++ evsP ++ evsN ++ evsF).
    rewrite !bytes_written_app.
    rewrite (bytes_written_no_writes evsP), (bytes_written_no_writes evsN)
      by assumption.
    exact Hbytes.
Qed.

(** X17.  A turn whose [Read]s return all they are asked for (for the type
    23, whose header [Read] does) forwards the bytes it read, all of them
    and in their order. *)
Lemma whole_reads_are_forwarded s evs s' header t :
  length (st_bHeader s) = 8%nat ->
  iteration s = (evs, inl s') ->
  parsed_header s = Some header ->
  Type_ header = Ok t ->
  forallb whole_read (if t =? 23 then firstn 1 evs else evs) = true ->
  bytes_written evs = bytes_read evs.
Proof.
  intros Hwf Hturn Hparsed Ht Hwhole.
  unfold iteration in Hturn.
  apply mbind_inv in Hturn.
  destruct Hturn as [(e & _ & He)
                    | (evsH & [bHeader client] & evs2 & Hh & H & ->)];
    [discriminate |].
  destruct (receive_header_read _ _ _ _ _ Hh) as (n & ->).
  pose proof (receive_header_spec _ _ _ _ Hh) as (_ & _ & _ & Hlen & _).
  assert (Hheader : NewTDSHeader bHeader = Ok {| Buffer := bHeader |})
    by (apply NewTDSHeader_whole; congruence).
  assert (header = {| Buffer := bHeader |}).
  { unfold parsed_header in Hparsed. rewrite Hh, Hheader in Hparsed.
    congruence. }
  subst header.
  destruct (header_fields {| Buffer := bHeader |})
    as (t' & st & lih & Ht' & Hst & Hlih & _ & _ & _); [cbn; congruence |].
  rewrite Ht in Ht'. apply Ok_inj in Ht'. subst t'.
  rewrite Hheader in H. cbn [lift] in H. rewrite mbind_ret in H.
  destruct (ensure_buffer_spec {| Buffer := bHeader |} (st_bBuffer s) lih Hlih)
    as (bBuffer & Hensure & Hfloor & Hroom).
  rewrite Hensure in H. fold (@ret (list byte) bBuffer) in H.
  rewrite mbind_ret in H.
  apply mbind_inv in H.
  destruct H as [(e & _ & He)
                | (evsP & [[bBuffer' received] client'] & evs3 & Hp & H & ->)];
    [discriminate |].
  destruct (receive_payload_read _ _ _ t lih _ _ _ _ Ht Hlih Hfloor Hroom Hp)
    as (HevsP & Hnone & Hle).
  pose proof (receive_payload_spec _ _ _ t lih _ _ Ht Hlih Hfloor Hroom Hp)
    as (_ & HwP & _ & Hlen' & Hreceived & _ & _).
  assert (Hroom' : lih < len bBuffer') by (unfold len in *; lia).
  apply mbind_inv in H.
  destruct H as [(e & _ & He) | (evsN & tdsMessage & evs4 & Hn & H & ->)];
    [discriminate |].
  pose proof (publish_spec _ _ _ _ t st lih _ _ Hheader Ht Hst Hlih Hn)
    as (HrN & HwN & [(_ & _ & Hpanic) | (Hpos & _)]); [discriminate |].
  apply mbind_inv in H.
  destruct H as [(e & _ & He) | (evsF & upstream & evs5 & Hf & H & ->)];
    [discriminate |].
  pose proof (forward_spec _ _ _ _ _ t lih _ _ Ht Hlih Hreceived Hpos Hroom' Hf)
    as Hf'.
  cbv zeta in Hf'. destruct Hf' as (HrF & _ & _ & HbytesF).
  unfold ret in H. inversion H; subst evs5. clear H.
  rewrite app_nil_r in *.
  rewrite !bytes_written_app, !bytes_read_app.
  rewrite (bytes_written_no_writes evsP HwP),
    (bytes_written_no_writes evsN HwN), (bytes_read_no_reads evsN HrN),
    (bytes_read_no_reads evsF HrF), HbytesF.
  cbn [bytes_written bytes_read app]. rewrite !app_nil_r.
  assert (Hhead : firstn (Z.to_nat n) bHeader = bHeader).
  { apply firstn_whole.
    destruct (t =? 23); cbn in Hwhole; apply andb_prop in Hwhole;
      destruct Hwhole as [Hfirst _]; apply Z.eqb_eq in Hfirst;
      rewrite Hfirst; unfold len; now rewrite Hlen. }
  rewrite Hhead. f_equal.
  rewrite HevsP. unfold payload_request in *.
  destruct (t =? 23) eqn:E23.
  - cbn. now rewrite app_nil_r.
  - cbn [app forallb whole_read] in Hwhole.
    apply andb_prop in Hwhole. destruct Hwhole as [_ Hwhole].
    rewrite forallb_app in Hwhole. apply andb_prop in Hwhole.
    destruct Hwhole as [Hwhole _]. rewrite HevsP in Hwhole.
    destruct (lih - HEADER_SIZE >? 0) eqn:Esize.
    + cbn in Hwhole |- *. rewrite app_nil_r.
      rewrite andb_true_r in Hwhole. apply Z.eqb_eq in Hwhole.
      inversion Hle as [| ? ? Hbound _]; subst.
      unfold len in Hwhole. rewrite length_firstn in Hwhole.
      f_equal. unfold len in Hreceived. lia.
    + rewrite Z.gtb_ltb in Esize. apply Z.ltb_ge in Esize.
      replace (lih - HEADER_SIZE) with 0 by lia. reflexivity.
Qed.

(** [packet_built], with the blocks before it done. *)
Lemma packet_built_eq s evsH bHeader client header evsB bBuffer evsP bBuffer'
  received client' payloadSize :
  receive_header (st_client s) (st_bHeader s) = (evsH, inl (bHeader, client)) ->
  NewTDSHeader bHeader = Ok header ->
  ensure_buffer header (st_bBuffer s) = (evsB, inl bBuffer) ->
  receive_payload header client bBuffer
  = (evsP, inl (bBuffer', received, client')) ->
  PayloadSize header = Ok payloadSize ->
  packet_built s
  = match NewTDSPacket bHeader bBuffer' payloadSize with
    | Ok p => Some p
    | Panic _ => None
    end.
Proof.
  intros Hh Hheader Hensure Hp Hsize. unfold packet_built.
  rewrite snd_mbind, Hh. cbn [snd].
  rewrite snd_mbind, Hheader. cbn [snd lift ret].
  rewrite snd_mbind, Hensure. cbn [snd].
  rewrite snd_mbind, Hp. cbn [snd].
  rewrite snd_mbind, Hsize. cbn [snd lift ret].
  now destruct (NewTDSPacket bHeader bBuffer' payloadSize).
Qed.

Lemma packet_built_none s :
  (forall bHeader client header bBuffer bBuffer' received client',
      snd (receive_header (st_client s) (st_bHeader s)) = inl (bHeader, client) ->
      NewTDSHeader bHeader = Ok header ->
      snd (ensure_buffer header (st_bBuffer s)) = inl bBuffer ->
      snd (receive_payload header client bBuffer)
      <> inl (bBuffer', received, client')) ->
  packet_built s = None.
Proof.
  intros Hnone. unfold packet_built.
  rewrite snd_mbind.
  destruct (snd (receive_header _ _)) as [[bHeader client] |] eqn:Hh;
    [| reflexivity].
  rewrite snd_mbind.
  destruct (NewTDSHeader bHeader) as [header |] eqn:Hheader; cbn [snd lift ret];
    [| reflexivity].
  rewrite snd_mbind.
  destruct (snd (ensure_buffer _ _)) as [bBuffer |] eqn:Hensure;
    [| reflexivity].
  rewrite snd_mbind.
  destruct (snd (receive_payload _ _ _)) as [[[bBuffer' received] client'] |]
    eqn:Hp; [| reflexivity].
  exfalso. eapply Hnone; eauto.
Qed.

(** A turn of the loop tells the observers of the packet it builds, and of
    nothing when it builds none; the packet goes to the end of the message
    in progress, and this message is told when the packet ends it. *)
Lemma iteration_tells_the_packet_built s evs r :
  length (st_bHeader s) = 8%nat ->
  iteration s = (evs, r) ->
  match packet_built s with
  | Some p =>
      parsed_header s = Some (Header p)
      /\ exists msg,
           GetPackets msg = in_progress (st_tdsMessage s) ++ [p]
           /\ notifications evs
              = NPacket p :: (if Wire.eom p then [NMessage msg] else [])
           /\ match r with
              | inl s' =>
                  length (st_bHeader s') = 8%nat
                  /\ st_tdsMessage s' = (if Wire.eom p then None else Some msg)
              | inr _ => True
              end
  | None => notifications evs = [] /\ match r with
                                      | inl _ => False
                                      | inr _ => True
                                      end
  end.
Proof.
  intros Hwf H. unfold iteration in H.
  apply mbind_inv in H.
  destruct H as [(e & Hh & ->)
                | (evsH & [bHeader client] & evs2 & Hh & H & ->)].
  { rewrite packet_built_none.
    - apply receive_header_spec in Hh. destruct Hh as (_ & _ & Hn & _).
      split; [assumption | exact I].
    - intros * Hh'. rewrite Hh in Hh'. discriminate. }
  pose proof (receive_header_spec _ _ _ _ Hh)
    as (_ & _ & Hn & Hlen & _ & _).
  assert (Hheader : NewTDSHeader bHeader = Ok {| Buffer := bHeader |})
    by (apply NewTDSHeader_whole; congruence).
  rewrite Hheader in H. cbn [lift] in H. rewrite mbind_ret in H.
  destruct (header_fields {| Buffer := bHeader |})
    as (t & st & lih & Ht & Hst & Hlih & Hsize & _ & _); [cbn; congruence |].
  change (lih - 8) with (lih - HEADER_SIZE) in Hsize.
  destruct (ensure_buffer_spec {| Buffer := bHeader |} (st_bBuffer s) lih Hlih)
    as (bBuffer & Hensure & Hfloor & Hroom).
  rewrite Hensure in H. fold (@ret (list byte) bBuffer) in H.
  rewrite mbind_ret in H.
  rewrite notifications_app, Hn. cbn [app].
  apply mbind_inv in H.
  destruct H as [(e & Hp & ->)
                | (evsP & [[bBuffer' received] client'] & evs3
                   & Hp & H & ->)].
  { rewrite packet_built_none.
    - apply (receive_payload_spec _ _ _ t lih) in Hp; try assumption.
      destruct Hp as (_ & _ & Hn' & _). split; [assumption | exact I].
    - intros * Hh' Hheader' Hensure'. rewrite Hh in Hh'. cbn [snd] in Hh'.
      injection Hh' as <- <-. rewrite Hheader in Hheader'.
      apply Ok_inj in Hheader'. subst header.
      rewrite Hensure in Hensure'. cbn [snd] in Hensure'.
      injection Hensure' as <-. rewrite Hp. discriminate. }
  rewrite (packet_built_eq s _ _ _ _ _ _ _ _ _ _ _ Hh Hheader Hensure Hp Hsize).
  pose proof (receive_payload_spec _ _ _ t lih _ _ Ht Hlih Hfloor Hroom Hp)
    as (_ & _ & Hn' & _).
  rewrite notifications_app, Hn'. cbn [app].
  apply mbind_inv in H.
  destruct H as [(e & Hn2 & ->) | (evsN & tdsMessage & evs4 & Hn2 & H & ->)].
  - pose proof (publish_cases _ _ _ _ t st lih _ _ Hheader Ht Hst Hlih Hn2)
      as Hcases.
    destruct (NewTDSPacket bHeader bBuffer' (lih - HEADER_SIZE)) as [p | q].
    + destruct Hcases as (_ & msg & _ & _ & He). discriminate.
    + destruct Hcases as [-> _]. cbv beta iota. split; [reflexivity | exact I].
  - pose proof (publish_cases _ _ _ _ t st lih _ _ Hheader Ht Hst Hlih Hn2)
      as Hcases.
    destruct (NewTDSPacket bHeader bBuffer' (lih - HEADER_SIZE)) as [p | q];
      [| destruct Hcases as [_ He]; discriminate].
    destruct Hcases as (Hhead & msg & Hpackets & Hnotes & Hmessage).
    cbv beta iota.
    split; [unfold parsed_header; now rewrite Hh, Hheader, Hhead |].
    exists msg. split; [assumption |].
    assert (Hmsg : tdsMessage = if Wire.eom p then None else Some msg)
      by congruence.
    clear Hmessage.
    pose proof (forward_tells_nothing {| Buffer := bHeader |} bHeader bBuffer'
                  received (st_upstream s)) as Hquiet.
    apply mbind_inv in H.
    destruct H as [(e & Hf & ->) | (evsF & upstream & evs5 & Hf & H & ->)];
      rewrite Hf in Hquiet; cbn [fst] in Hquiet.
    + rewrite notifications_app, Hquiet, app_nil_r.
      split; [assumption | exact I].
    + unfold ret in H. inversion H; subst evs5 r. clear H.
      rewrite !notifications_app, Hquiet, !app_nil_r.
      split; [assumption |]. cbn [st_bHeader st_tdsMessage].
      split; [congruence | assumption].
Qed.


End Turn.

(* ===================================================================== *)
(** * The loop as a whole *)
(* ===================================================================== *)

Section Loop.

(** The loop leaves the function: a client socket on which only so much
    is left to happen feeds only so many turns. *)
Lemma ingress_loop_ends (fuel : nat) :
  forall s,
    length (st_bHeader s) = 8%nat ->
    (pending_input (st_client s) < fuel)%nat ->
    exists e, snd (ingress_loop fuel s) = Some e.
Proof.
  induction fuel as [| fuel IH]; intros s Hwf Hfuel; [lia |].
  cbn [ingress_loop].
  destruct (iteration s) as [evs [s' | e]] eqn:Hturn.
  - destruct (iteration_inv s evs _ Hwf Hturn)
      as [(_ & _ & _ & _ & Hr)
         | (header & t & st & lih & _ & _ & _ & _ & _
            & [(_ & _ & [Hr | [_ Hr]])
              | (_ & p & msg & out & _ & _ & _ & _ & _ & Hr)])];
      try discriminate.
    destruct Hr as (Hwf' & Hless & _).
    destruct (IH s' Hwf') as [e He]; [lia |].
    destruct (ingress_loop fuel s') as [evs' r']. now exists e.
  - now exists e.
Qed.

Lemma ingress_start_eq (couple : ClientSocket * UpstreamSocket) :
  ingress_start couple
  = Ok {| st_client := fst couple; st_upstream := snd couple;
          st_bBuffer := []; st_bHeader := repeat x00 8;
          st_tdsMessage := None |}.
Proof. reflexivity. Qed.

(** [clientBridgeToSQLServer] returns (or panics) on every client
    socket. *)
Lemma clientBridgeToSQLServer_ends (couple : ClientSocket * UpstreamSocket) :
  exists e,
    snd (clientBridgeToSQLServer (S (pending_input (fst couple))) couple)
    = Some e.
Proof.
  unfold clientBridgeToSQLServer. rewrite ingress_start_eq.
  match goal with
  | |- context [ingress_loop ?f ?s] =>
      destruct (ingress_loop_ends f s) as [e He];
      [reflexivity | cbn [st_client]; lia |];
      destruct (ingress_loop f s) as [evs r]
  end.
  cbn [snd] in He. subst r. now exists e.
Qed.

(** The packets of the message in progress and then those the loop
    builds are the packets of the messages the observers are told of, one
    message after the other, and then the packets of the message that is
    not complete yet. *)
Lemma ingress_loop_messages (fuel : nat) :
  forall s,
    length (st_bHeader s) = 8%nat ->
    forallb (fun p => negb (Wire.eom p)) (in_progress (st_tdsMessage s))
    = true ->
    exists msgs pending,
      map NPacket (in_progress (st_tdsMessage s))
        ++ notifications (fst (ingress_loop fuel s))
      = flat_map Wire.published msgs ++ map NPacket pending
      /\ flat_map GetPackets msgs ++ pending
         = in_progress (st_tdsMessage s) ++ packets_built fuel s
      /\ Forall Wire.ends_at_last_packet msgs
      /\ forallb (fun p => negb (Wire.eom p)) pending = true.
Proof.
  induction fuel as [| fuel IH]; intros s Hwf Hcur.
  { exists [], (in_progress (st_tdsMessage s)). cbn.
    rewrite !app_nil_r. repeat split; [constructor | assumption]. }
  cbn [ingress_loop packets_built].
  destruct (iteration s) as [evs r] eqn:Hturn.
  pose proof (iteration_tells_the_packet_built s evs r Hwf Hturn) as Htold.
  cbn [snd].
  destruct (packet_built s) as [p |].
  - destruct Htold as (_ & msg & Hpackets & Hn & Hr).
    assert (Hended : Wire.eom p = true -> Wire.ends_at_last_packet msg).
    { intros Heom. exists (in_progress (st_tdsMessage s)), p.
      repeat split; assumption. }
    assert (Hblock : Wire.published msg
                     = map NPacket (in_progress (st_tdsMessage s))
                         ++ [NPacket p; NMessage msg]).
    { unfold Wire.published. rewrite Hpackets, map_app, <- app_assoc.
      reflexivity. }
    destruct r as [s' | e].
    + destruct Hr as (Hwf' & Hnext).
      specialize (IH s' Hwf').
      destruct (ingress_loop fuel s') as [evs' r']. cbn [fst] in *.
      rewrite notifications_app, Hn.
      destruct (Wire.eom p) eqn:Heom; rewrite Hnext in IH;
        cbn [in_progress] in IH.
      * destruct (IH eq_refl)
          as (msgs & pending & Heq & Hbuilt & Hmsgs & Hpending).
        cbn [map app] in Heq, Hbuilt.
        exists (msg :: msgs), pending. cbn [flat_map].
        rewrite Hblock, Heq, <- !app_assoc, Hbuilt, Hpackets, <- !app_assoc.
        repeat split; [constructor; auto | assumption].
      * rewrite Hpackets in IH.
        destruct IH as (msgs & pending & Heq & Hbuilt & Hmsgs & Hpending).
        { rewrite forallb_app, Hcur. cbn. now rewrite Heom. }
        exists msgs, pending.
        rewrite <- Heq, Hbuilt, map_app, <- !app_assoc.
        repeat split; assumption.
    + cbn [fst]. rewrite Hn, app_nil_r.
      destruct (Wire.eom p) eqn:Heom.
      * exists [msg], []. cbn [flat_map map]. rewrite Hblock, !app_nil_r.
        repeat split; [assumption | constructor; auto].
      * exists [], (in_progress (st_tdsMessage s) ++ [p]).
        cbn [flat_map app]. rewrite map_app.
        repeat split; [constructor |].
        rewrite forallb_app, Hcur. cbn. now rewrite Heom.
  - destruct Htold as [Hn Hr]. destruct r as [s' | e]; [contradiction |].
    cbn [fst app]. rewrite Hn.
    exists [], (in_progress (st_tdsMessage s)). cbn.
    rewrite !app_nil_r. repeat split; [constructor | assumption].
Qed.

End Loop.

(* ===================================================================== *)
(** * The events of a turn that goes on *)
(* ===================================================================== *)

Section Anatomy.

Lemma publish_packet header bHeader bBuffer cur lih evs r :
  LengthIncludingHeader header = Ok lih ->
  publish header bHeader bBuffer cur = (evs, inl r) ->
  exists p rest,
    NewTDSPacket bHeader bBuffer (lih - HEADER_SIZE) = Ok p
    /\ evs = TDSPacketReceived p :: rest.
Proof.
  intros Hlih. unfold publish, PayloadSize. rewrite Hlih. cbn [bind lift].
  rewrite mbind_ret.
  destruct (NewTDSPacket bHeader bBuffer (lih - HEADER_SIZE)) as [p | q];
    cbn [lift]; [| discriminate].
  rewrite mbind_ret. intros H. apply mbind_inv in H.
  destruct H as [(e & _ & He) | (evs1 & [] & evs2 & Hemit & _ & ->)];
    [discriminate |].
  unfold emit in Hemit. injection Hemit as <-.
  now exists p, evs2.
Qed.

Lemma forward_events header bHeader bBuffer received conn t lih evs conn' :
  Type_ header = Ok t ->
  LengthIncludingHeader header = Ok lih ->
  0 <= received <= len bBuffer ->
  0 <= lih - HEADER_SIZE -> lih < len bBuffer ->
  forward header bHeader bBuffer received conn = (evs, inl conn') ->
  evs = [UpstreamWrite bHeader None;
         UpstreamWrite
           (firstn (Z.to_nat (if t =? 23 then received
                              else lih - HEADER_SIZE)) bBuffer) None].
Proof.
  intros Ht Hlih Hreceived Hpos Hroom. unfold forward, upstream_Write.
  destruct (Write conn bHeader) as [err conn1].
  unfold report_and_return, emit, return_, ret. cbn [mbind app].
  destruct err as [e |]; cbn [is_err]; [discriminate |].
  unfold PayloadSize. rewrite Ht, Hlih. cbn [bind lift].
  unfold ret. cbn [mbind app].
  assert (Hout : (if t =? 23 then slice_to bBuffer received
                  else slice_to bBuffer (lih - HEADER_SIZE))
                 = Ok (firstn (Z.to_nat (if t =? 23 then received
                                         else lih - HEADER_SIZE))
                         bBuffer)).
  { unfold HEADER_SIZE in *.
    destruct (t =? 23); apply slice_to_ok; lia. }
  rewrite Hout. cbn [lift]. unfold ret. cbn [mbind app].
  destruct (Write conn1 _) as [err conn2].
  unfold emit, ret. cbn [mbind app].
  destruct err as [e |]; cbn [is_err mbind app]; [discriminate |].
  intros H. now inversion H.
Qed.

(** The events of a turn that goes on to the next: the [Read] of the
    header, the [Read] of the payload when there is one, the packet, the
    message when the packet ends it, and the two [Write]s. *)
Lemma continuing_turn_events s evs s' :
  length (st_bHeader s) = 8%nat ->
  iteration s = (evs, inl s') ->
  exists t lih n received p published,
    let header := {| Buffer := st_bHeader s' |} in
    parsed_header s = Some header
    /\ Type_ header = Ok t
    /\ LengthIncludingHeader header = Ok lih
    /\ 0 <= lih - HEADER_SIZE
    /\ Header p = header
    /\ Payload p = firstn (Z.to_nat (lih - HEADER_SIZE)) (st_bBuffer s')
    /\ (published = [] \/ exists msg, published = [TDSMessageReceived msg])
    /\ evs = ClientRead 8 (firstn (Z.to_nat n) (st_bHeader s')) None
               :: map (fun hi =>
                         ClientRead hi
                           (firstn (Z.to_nat received) (st_bBuffer s')) None)
                    (payload_request t (lih - HEADER_SIZE))
               ++ TDSPacketReceived p :: published
               ++ [UpstreamWrite (st_bHeader s') None;
                   UpstreamWrite
                     (firstn (Z.to_nat (if t =? 23 then received
                                        else lih - HEADER_SIZE))
                        (st_bBuffer s')) None].
Proof.
  intros Hwf Hturn. unfold iteration in Hturn.
  assert (Hlen8 : len (st_bHeader s) = 8) by (unfold len; now rewrite Hwf).
  apply mbind_inv in Hturn.
  destruct Hturn as [(e & _ & He)
                    | (evsH & [bHeader client] & evs2 & Hh & H & ->)];
    [discriminate |].
  destruct (receive_header_read _ _ _ _ _ Hh) as (n & ->).
  pose proof (receive_header_spec _ _ _ _ Hh) as (_ & _ & _ & Hlen & _).
  assert (Hheader : NewTDSHeader bHeader = Ok {| Buffer := bHeader |})
    by (apply NewTDSHeader_whole; congruence).
  destruct (header_fields {| Buffer := bHeader |})
    as (t & st & lih & Ht & Hst & Hlih & _ & _ & _); [cbn; congruence |].
  rewrite Hheader in H. cbn [lift] in H. rewrite mbind_ret in H.
  destruct (ensure_buffer_spec {| Buffer := bHeader |} (st_bBuffer s) lih Hlih)
    as (bBuffer & Hensure & Hfloor & Hroom).
  rewrite Hensure in H. fold (@ret (list byte) bBuffer) in H.
  rewrite mbind_ret in H.
  apply mbind_inv in H.
  destruct H as [(e & _ & He)
                | (evsP & [[bBuffer' received] client'] & evs3 & Hp & H & ->)];
    [discriminate |].
  destruct (receive_payload_read _ _ _ t lih _ _ _ _ Ht Hlih Hfloor Hroom Hp)
    as (HevsP & _ & _).
  pose proof (receive_payload_spec _ _ _ t lih _ _ Ht Hlih Hfloor Hroom Hp)
    as (_ & _ & _ & Hlen' & Hreceived & _ & _).
  assert (Hroom' : lih < len bBuffer') by (unfold len in *; lia).
  apply mbind_inv in H.
  destruct H as [(e & _ & He) | (evsN & tdsMessage & evs4 & Hn & H & ->)];
    [discriminate |].
  pose proof (publish_spec _ _ _ _ t st lih _ _ Hheader Ht Hst Hlih Hn)
    as (_ & _ & [(_ & _ & Hpanic) | (Hpos & p & msg & Hp_header & _ & Hev)]);
    [discriminate |].
  destruct (publish_packet _ _ _ _ lih _ _ Hlih Hn) as (p' & rest & Hmake & Hfirst).
  assert (Hsame : p' = p /\ (rest = [] \/ exists m, rest = [TDSMessageReceived m])).
  { destruct (Wire.eom p); destruct Hev as [Hevs _]; rewrite Hevs in Hfirst;
      injection Hfirst as <- <-; split; try reflexivity;
      [right; now exists msg | now left]. }
  destruct Hsame as [-> Hrest].
  rewrite NewTDSPacket_eq in Hmake by assumption. apply Ok_inj in Hmake.
  apply mbind_inv in H.
  destruct H as [(e & _ & He) | (evsF & upstream & evs5 & Hf & H & ->)];
    [discriminate |].
  pose proof (forward_events _ _ _ _ _ t lih _ _ Ht Hlih Hreceived Hpos Hroom' Hf)
    as ->.
  unfold ret in H. inversion H; subst evs5 s'. clear H.
  cbn [st_bHeader st_bBuffer].
  exists t, lih, n, received, p, rest. cbv zeta.
  split; [unfold parsed_header; now rewrite Hh, Hheader |].
  do 3 (split; [assumption |]). split; [assumption |].
  split.
  { rewrite <- Hmake. cbn [Payload].
    replace (len bBuffer' >=? lih - HEADER_SIZE) with true; [reflexivity |].
    symmetry. apply Z.geb_le. unfold HEADER_SIZE. lia. }
  split; [assumption |].
  rewrite Hlen8, HevsP, Hfirst, app_nil_r. reflexivity.
Qed.


End Anatomy.

(* ===================================================================== *)
(** * The properties of the ingress loop *)
(* ===================================================================== *)

(** C1, at an input where the code departs from it.  The client sends the
    twelve bytes [01 01 00 0C 00 00 00 00 41 00 42 00]; they arrive as the
    header, then [41 00], then [42 00].  The payload [Read] returns two
    bytes, the loop forwards four bytes of its buffer all the same: the
    upstream socket gets [41 00 00 00] after the header, and the [42 00]
    that comes next is taken for the start of a header and never
    forwarded. *)
Theorem C1_short_payload_read_is_not_forwarded_as_read :
  let run := clientBridgeToSQLServer
               (S (pending_input client_in_segments))
               (client_in_segments, None) in
  bytes_read (fst run) = header_batch_12 ++ bytes [0x41; 0; 0x42; 0]
  /\ bytes_written (fst run) = header_batch_12 ++ bytes [0x41; 0; 0; 0]
  /\ snd run = Some Returned.
Proof. vm_compute. repeat split. Qed.

(** The same twelve bytes in one segment are forwarded as they came. *)
Example whole_packet_is_forwarded_as_read :
  let run := clientBridgeToSQLServer
               (S (pending_input client_in_one_segment))
               (client_in_one_segment, None) in
  bytes_read (fst run) = header_batch_12 ++ bytes [0x41; 0; 0x42; 0]
  /\ bytes_written (fst run) = bytes_read (fst run).
Proof. vm_compute. repeat split. Qed.

(** The loop on the header that declares seven bytes: the goroutine ends
    in the panic of [NewTDSPacket], and nothing is forwarded. *)
Example short_length_header_ends_the_loop_in_a_panic :
  let run := clientBridgeToSQLServer 2 ([Burst header_length_7], None) in
  snd run = Some (Panicked MakesliceLenOutOfRange)
  /\ bytes_written (fst run) = [].
Proof. vm_compute. repeat split. Qed.

(** C4.  The observers of a run of the ingress loop are told of the
    packets the loop builds from the client stream, of each once and in the
    order in which it builds them.  The packets up to the first with the
    end-of-message bit make the first message, those after it and up to the
    next the second, and so on; the one [TDSMessageReceived] of a message
    comes right after the [TDSPacketReceived] of its last packet, before the
    [TDSPacketReceived] of any packet of the next message.  The packets
    after the last end of message are those of the message in progress; no
    [TDSMessageReceived] follows them.

    Turn by turn: a turn that builds the packet [p], on the header it has
    parsed, publishes [TDSPacketReceived p]; [p] goes to the end of the
    message in progress; when [p] has the end-of-message bit, the
    [TDSMessageReceived] of this message follows at once and the next turn
    starts a new message, otherwise nothing follows and the next turn goes
    on with this one.  A turn that builds no packet tells the observers
    nothing. *)
Theorem C4_one_message_notification_after_the_last_packet
  (fuel : nat) (couple : ClientSocket * UpstreamSocket) :
  (exists (msgs : list TDSMessage) (pending : list TDSPacket),
      notifications (fst (clientBridgeToSQLServer fuel couple))
      = flat_map Wire.published msgs ++ map NPacket pending
      /\ flat_map GetPackets msgs ++ pending = packets_of_run fuel couple
      /\ Forall Wire.ends_at_last_packet msgs
      /\ forallb (fun p => negb (Wire.eom p)) pending = true)
  /\ (forall s : Ingress,
         length (st_bHeader s) = 8%nat ->
         match packet_built s with
         | Some p =>
             parsed_header s = Some (Header p)
             /\ exists msg,
                  GetPackets msg = in_progress (st_tdsMessage s) ++ [p]
                  /\ notifications (fst (iteration s))
                     = NPacket p
                         :: (if Wire.eom p then [NMessage msg] else [])
                  /\ forall s', snd (iteration s) = inl s' ->
                                st_tdsMessage s'
                                = (if Wire.eom p then None else Some msg)
         | None => notifications (fst (iteration s)) = []
         end).
Proof.
  split.
  - unfold clientBridgeToSQLServer, packets_of_run. rewrite ingress_start_eq.
    match goal with
    | |- context [ingress_loop fuel ?s] =>
        destruct (ingress_loop_messages fuel s eq_refl eq_refl)
          as (msgs & pending & Heq & Hbuilt & Hmsgs & Hpending);
        destruct (ingress_loop fuel s) as [evs r]
    end.
    cbn [st_tdsMessage in_progress map app fst] in Heq, Hbuilt.
    exists msgs, pending. split; [| split; [| split]; assumption].
    destruct r as [e |]; cbn [fst]; [| assumption].
    rewrite notifications_app. cbn. now rewrite app_nil_r.
  - intros s Hwf.
    pose proof (iteration_tells_the_packet_built s _ _ Hwf
                  (surjective_pairing (iteration s))) as Htold.
    destruct (packet_built s) as [p |]; [| exact (proj1 Htold)].
    destruct Htold as (Hhead & msg & Hpackets & Hn & Hr).
    split; [assumption |]. exists msg.
    split; [assumption |]. split; [assumption |].
    intros s' Hnext. rewrite Hnext in Hr. exact (proj2 Hr).
Qed.

Lemma C4_witness :
  (exists (msgs : list TDSMessage) (pending : list TDSPacket),
      notifications
        (fst (clientBridgeToSQLServer
                (S (pending_input client_with_three_packets))
                (client_with_three_packets, None)))
      = flat_map Wire.published msgs ++ map NPacket pending
      /\ flat_map GetPackets msgs ++ pending
         = [packet_first_half; packet_second_half; packet_first_half]
      /\ Forall Wire.ends_at_last_packet msgs
      /\ forallb (fun p => negb (Wire.eom p)) pending = true)
  /\ (exists msg,
         GetPackets msg = [packet_batch_12]
         /\ notifications (fst (iteration first_turn))
            = [NPacket packet_batch_12; NMessage msg]
         /\ st_tdsMessage second_turn = None).
Proof.
  destruct (C4_one_message_notification_after_the_last_packet
              (S (pending_input client_with_three_packets))
              (client_with_three_packets, None))
    as [(msgs & pending & Hn & Hbuilt & Hmsgs & Hpending) Hturn].
  split.
  - exists msgs, pending.
    assert (E : packets_of_run (S (pending_input client_with_three_packets))
                  (client_with_three_packets, None)
                = [packet_first_half; packet_second_half; packet_first_half])
      by (vm_compute; reflexivity).
    rewrite E in Hbuilt.
    exact (conj Hn (conj Hbuilt (conj Hmsgs Hpending))).
  - specialize (Hturn first_turn eq_refl).
    assert (E : packet_built first_turn = Some packet_batch_12)
      by (vm_compute; reflexivity).
    rewrite E in Hturn.
    destruct Hturn as (_ & msg & Hpackets & Htold & Hnext).
    assert (Hgoes : snd (iteration first_turn) = inl second_turn)
      by (vm_compute; reflexivity).
    exists msg.
    exact (conj Hpackets (conj Htold (Hnext second_turn Hgoes))).
Defined.

(** Two packets make a message, a third one starts the next: the observers
    see the two packets, the message, and the third packet. *)
Example two_packets_then_their_message :
  notifications
    (fst (clientBridgeToSQLServer
            (S (pending_input client_with_three_packets))
            (client_with_three_packets, None)))
  = Wire.published
      (SQLBatchMessage
         {| Packets := [packet_first_half; packet_second_half] |})
    ++ [NPacket packet_first_half].
Proof. vm_compute. reflexivity. Qed.



(* ===================================================================== *)
(** * The exit status *)
(* ===================================================================== *)

(** C9, where the code departs from it: the host name does not resolve,
    [main] prints the error and returns, and the exit status is zero. *)
Lemma C9_resolution_failure_exits_with_zero :
  Main.resolution_failure Main.env_unresolved
  /\ Main.main Main.env_unresolved = (Main.resolution_error, Ok tt)
  /\ Main.exit_code (Main.main Main.env_unresolved) = 0.
Proof.
  split; [| split; reflexivity].
  unfold Main.resolution_failure, Main.env_unresolved, Main.command_line.
  cbn. repeat eexists.
Qed.

(** C9, amended.  The exit status is zero on the usage display, on a
    graceful shutdown, and on the two startup failures as well: [main]
    prints the error and returns. *)
Theorem C9_every_way_out_exits_with_zero (env : Main.Env) :
  (Main.usage_display env ->
   Main.main env = (Main.usage, Ok tt)
   /\ Main.exit_code (Main.main env) = 0)
  /\ (Main.resolution_failure env ->
      Main.main env = (Main.resolution_error, Ok tt)
      /\ Main.exit_code (Main.main env) = 0)
  /\ (Main.bind_failure env ->
      Main.main env = (Main.start_error, Ok tt)
      /\ Main.exit_code (Main.main env) = 0)
  /\ (Main.graceful_shutdown env ->
      (exists ba, Main.main env = (Main.serve ba, Ok tt))
      /\ Main.exit_code (Main.main env) = 0).
Proof.
  assert (Hargs : forall program listenPort sqlServerAddr sqlServerPort rest,
             Main.Args env
             = program :: listenPort :: sqlServerAddr :: sqlServerPort :: rest ->
             Main.main env
             = match Main.LookupHost env sqlServerAddr with
               | None => (Main.resolution_error, Ok tt)
               | Some iphe =>
                   match index iphe 0 with
                   | Panic q => ([], Panic q)
                   | Ok ip =>
                       if Main.Listen env listenPort
                       then (Main.serve
                               (fst (Main.Start (Main.Listen env)
                                       (Main.NewBridgeAcceptor listenPort
                                          (ip, sqlServerPort)))), Ok tt)
                       else (Main.start_error, Ok tt)
                   end
               end).
  { intros program listenPort sqlServerAddr sqlServerPort rest Hargs.
    unfold Main.main. rewrite Hargs.
    replace (len (program :: listenPort :: sqlServerAddr :: sqlServerPort
                    :: rest) <? 4) with false
      by (symmetry; apply Z.ltb_ge; unfold len; cbn [length]; lia).
    rewrite (index_ok _ 1 listenPort), (index_ok _ 2 sqlServerAddr),
      (index_ok _ 3 sqlServerPort) by (reflexivity || lia).
    cbn [bind].
    destruct (Main.LookupHost env sqlServerAddr) as [iphe |];
      [| reflexivity].
    destruct (index iphe 0) as [ip | q]; [| reflexivity].
    unfold Main.Start, Main.NewBridgeAcceptor.
    cbn [Main.enabled Main.acceptPort].
    now destruct (Main.Listen env listenPort). }
  split; [| split; [| split]].
  - unfold Main.usage_display. intros Hfew. apply Z.ltb_lt in Hfew.
    unfold Main.exit_code, Main.main. rewrite Hfew. split; reflexivity.
  - intros (program & listenPort & addr & port & rest & Hcmd & Hlookup).
    unfold Main.exit_code. rewrite (Hargs _ _ _ _ _ Hcmd), Hlookup.
    split; reflexivity.
  - intros (program & listenPort & addr & port & rest & ip & ips
            & Hcmd & Hlookup & Hlisten).
    unfold Main.exit_code. rewrite (Hargs _ _ _ _ _ Hcmd), Hlookup, Hlisten.
    split; reflexivity.
  - intros (program & listenPort & addr & port & rest & ip & ips
            & Hcmd & Hlookup & Hlisten).
    unfold Main.exit_code. rewrite (Hargs _ _ _ _ _ Hcmd), Hlookup, Hlisten.
    split; [eexists |]; reflexivity.
Qed.

Lemma C9_witness :
  (Main.usage_display Main.env_no_arguments
   /\ Main.exit_code (Main.main Main.env_no_arguments) = 0)
  /\ (Main.resolution_failure Main.env_unresolved
      /\ Main.exit_code (Main.main Main.env_unresolved) = 0)
  /\ (Main.bind_failure Main.env_port_taken
      /\ Main.exit_code (Main.main Main.env_port_taken) = 0)
  /\ (Main.graceful_shutdown Main.env_fine
      /\ Main.exit_code (Main.main Main.env_fine) = 0).
Proof.
  assert (Hfew : Main.usage_display Main.env_no_arguments)
    by (unfold Main.usage_display; cbn; lia).
  assert (Hname : Main.resolution_failure Main.env_unresolved)
    by (unfold Main.resolution_failure; cbn; repeat eexists).
  assert (Hport : Main.bind_failure Main.env_port_taken)
    by (unfold Main.bind_failure; cbn; repeat eexists).
  assert (Hfine : Main.graceful_shutdown Main.env_fine)
    by (unfold Main.graceful_shutdown; cbn; repeat eexists).
  destruct (C9_every_way_out_exits_with_zero Main.env_no_arguments)
    as (Husage & _).
  destruct (C9_every_way_out_exits_with_zero Main.env_unresolved)
    as (_ & Hresolution & _).
  destruct (C9_every_way_out_exits_with_zero Main.env_port_taken)
    as (_ & _ & Hbind & _).
  destruct (C9_every_way_out_exits_with_zero Main.env_fine)
    as (_ & _ & _ & Hshutdown).
  split; [| split; [| split]]; (split; [assumption |]).
  - exact (proj2 (Husage Hfew)).
  - exact (proj2 (Hresolution Hname)).
  - exact (proj2 (Hbind Hport)).
  - exact (proj2 (Hshutdown Hfine)).
Defined.

(* ===================================================================== *)
(** * More of the header and packet codec *)
(* ===================================================================== *)

Section Store.

Context {A : Type}.
Implicit Types (s : list A) (i j : Z).

Lemma store_ok s i (v : A) :
  0 <= i < len s ->
  exists s', store s i v = Ok s'
             /\ length s' = length s
             /\ nth_error s' (Z.to_nat i) = Some v
             /\ forall k, k <> Z.to_nat i -> nth_error s' k = nth_error s k.
Proof.
  intros Hi. unfold store.
  replace (0 <=? i) with true by (symmetry; apply Z.leb_le; lia).
  replace (i <? len s) with true by (symmetry; apply Z.ltb_lt; lia).
  cbn [andb]. eexists. split; [reflexivity |].
  unfold len in Hi.
  assert (Hfirst : length (firstn (Z.to_nat i) s) = Z.to_nat i)
    by (rewrite length_firstn; lia).
  split; [| split].
  - rewrite length_app. cbn [length]. rewrite Hfirst, length_skipn. lia.
  - rewrite nth_error_app2 by lia. rewrite Hfirst, Nat.sub_diag. reflexivity.
  - intros k Hk. destruct (Nat.lt_ge_cases k (Z.to_nat i)) as [Hlt | Hge].
    + rewrite nth_error_app1 by lia. rewrite nth_error_firstn.
      apply Nat.ltb_lt in Hlt. now rewrite Hlt.
    + rewrite nth_error_app2 by lia. rewrite Hfirst.
      destruct (k - Z.to_nat i)%nat as [| d] eqn:Hd; [lia |].
      cbn [nth_error]. rewrite nth_error_skipn. f_equal. lia.
Qed.

End Store.

Lemma GetByte_eq (h : TDSHeader) (idx : Z) :
  GetByte h idx = Ok (nth (Z.to_nat idx) (if idx <? 0 then [] else Buffer h) x00).
Proof.
  unfold GetByte. rewrite Z.geb_leb.
  destruct (Z.leb_spec 0 idx) as [Hpos | Hneg];
    destruct (Z.ltb_spec idx (len (Buffer h))) as [Hlt | Hge]; cbn [andb].
  - destruct (index_in_range (Buffer h) idx) as (a & -> & Hnth); [lia |].
    replace (idx <? 0) with false by (symmetry; apply Z.ltb_ge; lia).
    f_equal. symmetry. now apply nth_error_nth.
  - replace (idx <? 0) with false by (symmetry; apply Z.ltb_ge; lia).
    rewrite nth_overflow; [reflexivity | unfold len in Hge; lia].
  - replace (idx <? 0) with true by (symmetry; apply Z.ltb_lt; lia).
    now destruct (Z.to_nat idx).
  - replace (idx <? 0) with true by (symmetry; apply Z.ltb_lt; lia).
    now destruct (Z.to_nat idx).
Qed.

(** X1.  [SetByte] and then [GetByte], at every index: inside the buffer
    [GetByte] reads back the byte [SetByte] wrote, outside it [SetByte]
    changes nothing and [GetByte] gives zero; the length of the buffer and
    every other byte stay as they were, and neither call panics. *)
Theorem SetByte_then_GetByte (h : TDSHeader) (idx jdx : Z) (value : byte) :
  exists h',
    SetByte h idx value = Ok h'
    /\ len (Buffer h') = len (Buffer h)
    /\ GetByte h' idx
       = Ok (if (0 <=? idx) && (idx <? len (Buffer h)) then value else x00)
    /\ (jdx <> idx -> GetByte h' jdx = GetByte h jdx).
Proof.
  destruct ((0 <=? idx) && (idx <? len (Buffer h))) eqn:Hin.
  - apply andb_prop in Hin. destruct Hin as [Hlo Hhi].
    apply Z.leb_le in Hlo. apply Z.ltb_lt in Hhi.
    assert (Hidx : 0 <= idx < len (Buffer h)) by lia.
    unfold SetByte. rewrite Z.geb_leb.
    replace (0 <=? idx) with true by (symmetry; apply Z.leb_le; lia).
    replace (idx <? len (Buffer h)) with true
      by (symmetry; apply Z.ltb_lt; lia).
    cbn [andb].
    destruct (store_ok (Buffer h) idx value Hidx)
      as (b & -> & Hlen & Hsame & Hother).
    cbn [bind]. eexists. split; [reflexivity |]. cbn [Buffer].
    split; [unfold len; now rewrite Hlen |].
    split.
    + rewrite GetByte_eq. cbn [Buffer].
      replace (idx <? 0) with false by (symmetry; apply Z.ltb_ge; lia).
      f_equal. now apply nth_error_nth.
    + intros Hne. rewrite !GetByte_eq. cbn [Buffer].
      destruct (Z.ltb_spec jdx 0) as [Hneg | Hpos]; [reflexivity |].
      f_equal.
      assert (Hk : Z.to_nat jdx <> Z.to_nat idx) by lia.
      specialize (Hother _ Hk).
      destruct (nth_error (Buffer h) (Z.to_nat jdx)) as [a |] eqn:Ha.
      * rewrite (nth_error_nth _ _ _ Hother). symmetry.
        now apply nth_error_nth.
      * apply nth_error_None in Hother. apply nth_error_None in Ha.
        now rewrite !nth_overflow.
  - exists h. unfold SetByte, GetByte. rewrite Z.geb_leb, Hin.
    repeat split.
Qed.

(** X2.  On a header of eight bytes, the high byte of a length below 65536
    written at index 2 and its low byte written at index 3 are read back by
    [LengthIncludingHeader] as this length, and by [PayloadSize] as the
    length less eight: the length field is big-endian. *)
Theorem length_written_with_SetByte_is_read_back (h : TDSHeader) (L : Z) :
  length (Buffer h) = 8%nat ->
  0 <= L < 65536 ->
  exists h1 h2,
    SetByte h 2 (byte.of_Z (L / 256)) = Ok h1
    /\ SetByte h1 3 (byte.of_Z L) = Ok h2
    /\ LengthIncludingHeader h2 = Ok L
    /\ PayloadSize h2 = Ok (L - 8).
Proof.
  intros Hlen HL. destruct h as [b]. cbn [Buffer] in Hlen.
  destruct b as [| b0 [| b1 [| b2 [| b3 [| b4 [| b5 [| b6 [| b7 [|]]]]]]]]];
    try discriminate.
  do 2 eexists. split; [reflexivity |]. split; [reflexivity |].
  assert (Hvalue : byte.unsigned (byte.of_Z (L / 256)) * 256
                   + byte.unsigned (byte.of_Z L) = L).
  { rewrite !byte.unsigned_of_Z. unfold byte.wrap.
    change (2 ^ 8) with 256.
    rewrite (Z.mod_small (L / 256)).
    - pose proof (Z.div_mod L 256). lia.
    - split; [apply Z.div_pos; lia | apply Z.div_lt_upper_bound; lia]. }
  unfold PayloadSize, LengthIncludingHeader. cbn [Buffer].
  rewrite (index_ok _ 2 (byte.of_Z (L / 256))),
    (index_ok _ 3 (byte.of_Z L)) by (reflexivity || lia).
  cbn [bind]. change 0x100 with 256. rewrite Hvalue. split; reflexivity.
Qed.

(** X3.  [NewTDSHeader] never fails and its buffer has eight bytes: the
    first eight of a buffer that has them, and eight zero bytes for a
    shorter buffer, whose header then has the type 0, the length 0 and the
    payload size -8. *)
Theorem NewTDSHeader_keeps_eight_bytes_or_zeroes (buffer : list byte) :
  exists h,
    NewTDSHeader buffer = Ok h
    /\ len (Buffer h) = 8
    /\ (8 <= len buffer -> Buffer h = firstn 8 buffer)
    /\ (len buffer < 8 ->
        Buffer h = repeat x00 8
        /\ Type_ h = Ok 0
        /\ LengthIncludingHeader h = Ok 0
        /\ PayloadSize h = Ok (-8)).
Proof.
  eexists. split; [apply NewTDSHeader_eq |]. cbn [Buffer].
  unfold HEADER_SIZE.
  destruct (len buffer >=? 8) eqn:E.
  - apply Z.geb_le in E. split.
    + unfold len in *. rewrite length_firstn. lia.
    + split; [reflexivity | lia].
  - rewrite Z.geb_leb in E. apply Z.leb_gt in E.
    split; [reflexivity |]. split; [lia |].
    intros _. repeat split.
Qed.

(** X4.  On a header that [NewTDSHeader] made no accessor panics; the type
    is between 0 and 255, the length between 0 and 65535, and the payload
    size is the length less eight (so between -8 and 65527). *)
Theorem header_fields_of_a_made_header (buffer : list byte) (h : TDSHeader) :
  NewTDSHeader buffer = Ok h ->
  exists t status lih,
    Type_ h = Ok t
    /\ StatusBitMask h = Ok status
    /\ LengthIncludingHeader h = Ok lih
    /\ PayloadSize h = Ok (lih - 8)
    /\ 0 <= t <= 255
    /\ 0 <= lih <= 65535.
Proof.
  intros Hh. apply NewTDSHeader_length in Hh.
  destruct (header_fields h Hh) as (t & st & lih & Ht & Hst & Hlih & Hps & Htr & Hlr).
  exists t, st, lih. repeat split; try assumption; lia.
Qed.

(** X5.  [AllHeader.Length] on a payload that starts with the four
    little-endian bytes of a number below 2^32 is this number, whatever
    follows. *)
Theorem AllHeader_Length_reads_back_little_endian
  (n : Z) (rest : list byte) :
  0 <= n < 2 ^ 32 ->
  AllHeader_Length (NewAllHeader (le_split 4 n ++ rest)) = Ok n.
Proof.
  intros Hn. rewrite AllHeader_Length_eq.
  replace (len (le_split 4 n ++ rest) >=? 4) with true
    by (symmetry; apply Z.geb_le; rewrite len_app;
        pose proof (len_nonneg rest); unfold len at 1;
        rewrite length_le_split; lia).
  unfold Wire.all_headers_length. rewrite firstn_app, length_le_split.
  change (4 - 4)%nat with 0%nat.
  rewrite firstn_all2 by (rewrite length_le_split; lia).
  cbn [firstn]. rewrite app_nil_r, le_combine_split.
  f_equal. apply Z.mod_small. change (Z.of_nat 4 * 8) with 32. assumption.
Qed.

(** X6.  [NewTDSPacket] panics on a negative [payloadSize] and on no other
    input.  Otherwise the payload of the packet has [payloadSize] bytes:
    the first [payloadSize] bytes of the given payload when it has that
    many, and zero bytes only, nothing of the given payload, when it is
    shorter. *)
Theorem NewTDSPacket_copies_or_zero_fills
  (header payload : list byte) (payloadSize : Z) :
  (payloadSize < 0 ->
   NewTDSPacket header payload payloadSize = Panic MakesliceLenOutOfRange)
  /\ (0 <= payloadSize ->
      exists P,
        NewTDSPacket header payload payloadSize = Ok P
        /\ len (Payload P) = payloadSize
        /\ (payloadSize <= len payload ->
            Payload P = firstn (Z.to_nat payloadSize) payload)
        /\ (len payload < payloadSize ->
            Payload P = repeat x00 (Z.to_nat payloadSize))).
Proof.
  split; [apply NewTDSPacket_negative |].
  intros Hpos. eexists. split; [now apply NewTDSPacket_eq |].
  cbn [Payload].
  destruct (len payload >=? payloadSize) eqn:E.
  - apply Z.geb_le in E. split.
    + unfold len in *. rewrite length_firstn. lia.
    + split; [reflexivity | lia].
  - rewrite Z.geb_leb in E. apply Z.leb_gt in E. split.
    + unfold len. rewrite repeat_length. lia.
    + split; [lia | reflexivity].
Qed.

Lemma NewTDSPacketFromBuffer_split (hdr payload : list byte) (payloadSize : Z) :
  length hdr = 8%nat ->
  PayloadSize {| Buffer := hdr |} = Ok payloadSize ->
  NewTDSPacketFromBuffer (hdr ++ payload)
  = NewTDSPacket hdr payload payloadSize.
Proof.
  intros Hhdr Hsize. unfold NewTDSPacketFromBuffer.
  assert (Hlen : len (hdr ++ payload) = 8 + len payload)
    by (rewrite len_app; unfold len; rewrite Hhdr; reflexivity).
  pose proof (len_nonneg payload) as Hpayload.
  rewrite NewTDSHeader_eq.
  replace (len (hdr ++ payload) >=? HEADER_SIZE) with true
    by (symmetry; apply Z.geb_le; unfold HEADER_SIZE; lia).
  replace (firstn 8 (hdr ++ payload)) with hdr
    by (rewrite firstn_app, Hhdr, Nat.sub_diag, <- Hhdr, firstn_all;
        cbn [firstn]; now rewrite app_nil_r).
  cbn [bind]. rewrite Hsize. cbn [bind].
  destruct (Z.ltb_spec payloadSize 0) as [Hneg | Hpos].
  - rewrite NewTDSPacket_negative, make_panics by assumption. reflexivity.
  - rewrite NewTDSPacket_eq, make_ok by assumption. cbn [bind].
    replace (len hdr >=? HEADER_SIZE) with true
      by (symmetry; apply Z.geb_le; unfold len, HEADER_SIZE; lia).
    replace (firstn 8 hdr) with hdr by (now rewrite <- Hhdr, firstn_all).
    rewrite Hlen. unfold HEADER_SIZE.
    replace (8 + len payload >=? 8 + payloadSize)
      with (len payload >=? payloadSize)
      by (rewrite !Z.geb_leb; destruct (Z.leb_spec payloadSize (len payload));
          symmetry; [apply Z.leb_le | apply Z.leb_gt]; lia).
    destruct (len payload >=? payloadSize) eqn:E; [| reflexivity].
    apply Z.geb_le in E. unfold slice_between.
    replace ((0 <=? 8) && (8 <=? 8 + payloadSize)
             && (8 + payloadSize <=? len (hdr ++ payload))) with true
      by (symmetry; rewrite !andb_true_iff; repeat split; apply Z.leb_le; lia).
    cbn [bind]. replace (8 + payloadSize - 8) with payloadSize by lia.
    change (Z.to_nat 8) with 8%nat.
    replace (skipn 8 (hdr ++ payload)) with payload
      by (rewrite skipn_app, Hhdr, Nat.sub_diag, <- Hhdr, skipn_all;
          reflexivity).
    do 2 f_equal. apply copy_all.
    rewrite repeat_length, length_firstn. unfold len in E. lia.
Qed.

(** X7.  [NewTDSPacketFromBuffer] on a buffer that holds a whole packet
    (a declared length of at least eight and at most the length of the
    buffer): the eight header bytes of the packet followed by its payload
    are the first declared-length bytes of the buffer. *)
Theorem NewTDSPacketFromBuffer_reads_back_a_packet
  (buffer : list byte) (h : TDSHeader) (lih : Z) :
  NewTDSHeader buffer = Ok h ->
  LengthIncludingHeader h = Ok lih ->
  8 <= lih <= len buffer ->
  exists P,
    NewTDSPacketFromBuffer buffer = Ok P
    /\ Buffer (Header P) ++ Payload P = firstn (Z.to_nat lih) buffer.
Proof.
  intros Hh Hlih Hrange.
  assert (Hlen : (8 <= length buffer)%nat) by (unfold len in Hrange; lia).
  pose (hdr := firstn 8 buffer). pose (payload := skipn 8 buffer).
  assert (Hhdr : length hdr = 8%nat)
    by (unfold hdr; rewrite length_firstn; lia).
  assert (Hpayload : len payload = len buffer - 8)
    by (unfold payload, len; rewrite length_skipn; lia).
  assert (Hsplit : buffer = hdr ++ payload)
    by (symmetry; apply firstn_skipn).
  clearbody hdr payload. subst buffer. clear Hlen.
  assert (Hhead : h = {| Buffer := hdr |}).
  { rewrite NewTDSHeader_eq in Hh. apply Ok_inj in Hh. subst h. f_equal.
    replace (len (hdr ++ payload) >=? HEADER_SIZE) with true
      by (symmetry; apply Z.geb_le; rewrite len_app; unfold HEADER_SIZE, len;
          lia).
    rewrite firstn_app, Hhdr, Nat.sub_diag, <- Hhdr, firstn_all.
    cbn [firstn]. now rewrite app_nil_r. }
  subst h.
  rewrite (NewTDSPacketFromBuffer_split hdr payload (lih - 8) Hhdr)
    by (unfold PayloadSize; rewrite Hlih; reflexivity).
  rewrite NewTDSPacket_eq by lia.
  eexists. split; [reflexivity |]. cbn [Header Payload Buffer].
  replace (len hdr >=? HEADER_SIZE) with true
    by (symmetry; apply Z.geb_le; unfold len, HEADER_SIZE; lia).
  replace (len payload >=? lih - 8) with true
    by (symmetry; apply Z.geb_le; lia).
  replace (firstn 8 hdr) with hdr by (now rewrite <- Hhdr, firstn_all).
  rewrite firstn_app, Hhdr.
  replace (Z.to_nat lih - 8)%nat with (Z.to_nat (lih - 8)) by lia.
  rewrite (firstn_all2 (n := Z.to_nat lih)) by lia. reflexivity.
Qed.

(** X8.  [NewTDSPacketFromBuffer] panics in [make] on every buffer of fewer
    than eight bytes (the header is then all zero and the payload size -8),
    and on every buffer whose header declares fewer than eight bytes. *)
Theorem NewTDSPacketFromBuffer_panics_below_eight (buffer : list byte) :
  (len buffer < 8 ->
   NewTDSPacketFromBuffer buffer = Panic MakesliceLenOutOfRange)
  /\ (forall h lih,
        NewTDSHeader buffer = Ok h ->
        LengthIncludingHeader h = Ok lih ->
        lih < 8 ->
        NewTDSPacketFromBuffer buffer = Panic MakesliceLenOutOfRange).
Proof.
  split.
  - intros Hshort. unfold NewTDSPacketFromBuffer. rewrite NewTDSHeader_eq.
    replace (len buffer >=? HEADER_SIZE) with false
      by (symmetry; rewrite Z.geb_leb; apply Z.leb_gt; unfold HEADER_SIZE;
          lia).
    reflexivity.
  - intros h lih Hh Hlih Hsmall. unfold NewTDSPacketFromBuffer, PayloadSize.
    rewrite Hh. cbn [bind]. rewrite Hlih. cbn [bind].
    rewrite make_panics by (unfold HEADER_SIZE; lia). reflexivity.
Qed.

(** X9.  The two constructors agree: [NewTDSPacketFromBuffer] on the eight
    header bytes followed by any bytes is [NewTDSPacket] on the header,
    these bytes and the payload size the header declares, panic
    included. *)
Theorem the_two_packet_constructors_agree
  (hdr payload : list byte) (payloadSize : Z) :
  length hdr = 8%nat ->
  PayloadSize {| Buffer := hdr |} = Ok payloadSize ->
  NewTDSPacketFromBuffer (hdr ++ payload)
  = NewTDSPacket hdr payload payloadSize.
Proof. apply NewTDSPacketFromBuffer_split. Qed.

(* ===================================================================== *)
(** * More of the message assembler *)
(* ===================================================================== *)

(** X10.  [AssemblePayload] never fails: it is the payloads of the packets
    one after the other, in the order of the packets, and its length is the
    sum of their lengths. *)
Theorem AssemblePayload_is_the_payloads_in_order (m : TDSMessage) :
  AssemblePayload m = Ok (concat (map Payload (GetPackets m)))
  /\ len (concat (map Payload (GetPackets m)))
     = fold_right (fun p acc => len (Payload p) + acc) 0 (GetPackets m).
Proof.
  split; [apply Base_AssemblePayload_eq |].
  unfold GetPackets. induction (Packets (base_of m)) as [| p ps IH].
  - reflexivity.
  - cbn [map concat fold_right]. rewrite len_app, IH. reflexivity.
Qed.

(** X11.  [AddPacket] puts the packet after the packets of the message,
    whatever its type; the message keeps its kind, and its assembled
    payload grows by the payload of the packet. *)
Theorem AddPacket_appends (m : TDSMessage) (packet : TDSPacket) :
  GetPackets (AddPacket m packet) = GetPackets m ++ [packet]
  /\ kind_of (AddPacket m packet) = kind_of m
  /\ exists payload,
       AssemblePayload m = Ok payload
       /\ AssemblePayload (AddPacket m packet)
          = Ok (payload ++ Payload packet).
Proof.
  split; [apply GetPackets_AddPacket |].
  split; [now destruct m |].
  eexists. split; [apply Base_AssemblePayload_eq |].
  unfold AssemblePayload. rewrite Base_AssemblePayload_eq.
  fold (GetPackets (AddPacket m packet)). rewrite GetPackets_AddPacket.
  unfold GetPackets. rewrite map_app, concat_app. cbn [map concat].
  now rewrite app_nil_r.
Qed.

Lemma land_pow2_eqb (a n : Z) :
  0 <= n -> (Z.land a (2 ^ n) =? 2 ^ n) = Z.testbit a n.
Proof.
  intros Hn. destruct (Z.testbit a n) eqn:Hbit.
  - apply Z.eqb_eq. apply Z.bits_inj'. intros i Hi.
    rewrite Z.land_spec, Z.pow2_bits_eqb by lia.
    destruct (Z.eqb_spec n i) as [<- | Hne];
      [now rewrite Hbit | apply andb_false_r].
  - apply Z.eqb_neq. intros Heq.
    apply (f_equal (fun z => Z.testbit z n)) in Heq.
    rewrite Z.land_spec, Hbit, Z.pow2_bits_true in Heq by lia.
    discriminate.
Qed.

(** X12.  [IsComplete] and [HasIgnoreBitSet] look at the last packet only:
    they are bit 0 and bit 1 of its status byte, whatever the other bits of
    this byte and the status bytes of the packets before. *)
Theorem completeness_is_told_by_the_last_packet
  (m : TDSMessage) (before : list TDSPacket) (last : TDSPacket)
  (status : byte) :
  GetPackets m = before ++ [last] ->
  StatusBitMask (Header last) = Ok status ->
  IsComplete m = Ok (Z.testbit (byte.unsigned status) 0)
  /\ HasIgnoreBitSet m = Ok (Z.testbit (byte.unsigned status) 1).
Proof.
  intros Hpackets Hstatus.
  unfold IsComplete, HasIgnoreBitSet, Base_IsComplete, Base_HasIgnoreBitSet,
    last_status_has.
  unfold GetPackets in Hpackets. rewrite Hpackets.
  assert (Hlen : len (before ++ [last]) = len before + 1)
    by (rewrite len_app; reflexivity).
  pose proof (len_nonneg before) as Hpos.
  replace (len (before ++ [last]) =? 0) with false
    by (symmetry; apply Z.eqb_neq; lia).
  rewrite (index_ok _ _ last);
    [| rewrite Hlen; replace (len before + 1 - 1) with (len before) by lia;
       unfold len; rewrite Nat2Z.id, nth_error_app2, Nat.sub_diag by lia;
       reflexivity
     | lia].
  cbn [bind]. rewrite Hstatus. cbn [bind].
  unfold END_OF_MESSAGE, IGNORE_EVENT.
  change 0x01 with (2 ^ 0). change 0x02 with (2 ^ 1).
  rewrite !land_pow2_eqb by lia. split; reflexivity.
Qed.

Section Reported.

Lemma reported_mbind {A B} (c : M A) (k : A -> M B) :
  reported c -> (forall a, reported (k a)) -> reported (mbind c k).
Proof.
  intros [Hc1 Hc2] Hk. unfold reported.
  destruct c as [evs [a | e]]; cbn [mbind fst snd] in *.
  - destruct (Hk a) as [Hk1 Hk2]. destruct (k a) as [evs' r].
    cbn [fst snd] in *. split.
    + now rewrite forallb_app, Hc1, Hk1.
    + intros Hr. destruct (Hk2 Hr) as (evs0 & err & ->).
      exists (evs ++ evs0), err. now rewrite app_assoc.
  - split; [assumption |]. intros Hr. apply Hc2.
    injection Hr as ->. reflexivity.
Qed.

Lemma reported_ret {A} (a : A) : reported (ret a).
Proof. split; [reflexivity | discriminate]. Qed.

Lemma reported_lift {A} (c : result A) : reported (lift c).
Proof. destruct c; split; (reflexivity || discriminate). Qed.

Lemma reported_emit (ev : event) :
  not_disconnected ev = true -> reported (emit ev).
Proof. intros H. split; [cbn; now rewrite H | discriminate]. Qed.

Lemma reported_report_and_return {A} (err : option error) :
  reported (@report_and_return A err).
Proof.
  split; [reflexivity |]. intros _. now exists [], err.
Qed.

Lemma reported_client_Read conn bBuffer hi :
  reported (client_Read conn bBuffer hi).
Proof.
  unfold client_Read. apply reported_mbind; [apply reported_lift |].
  intros [[[b n] err] conn']. apply reported_mbind.
  - now apply reported_emit.
  - intros _. apply reported_ret.
Qed.

Lemma reported_upstream_Write conn b : reported (upstream_Write conn b).
Proof.
  unfold upstream_Write. destruct (Write conn b) as [err conn'].
  apply reported_mbind; [now apply reported_emit |].
  intros _. apply reported_ret.
Qed.

Lemma reported_iteration (s : Ingress) : reported (iteration s).
Proof.
  unfold iteration.
  apply reported_mbind.
  { unfold receive_header.
    destruct (Read (st_client s) (st_bHeader s)) as [[[b n] err] conn'].
    apply reported_mbind; [now apply reported_emit |]. intros _.
    destruct (is_err err || (n =? 0));
      [apply reported_report_and_return | apply reported_ret]. }
  intros [bHeader client].
  apply reported_mbind; [apply reported_lift |]. intros header.
  apply reported_mbind.
  { unfold ensure_buffer. apply reported_mbind; [apply reported_lift |].
    intros lih. cbv zeta.
    destruct (is_nil _ || _); [apply reported_lift | apply reported_ret]. }
  intros bBuffer.
  apply reported_mbind.
  { unfold receive_payload.
    apply reported_mbind; [apply reported_lift |]. intros t.
    apply reported_mbind; [apply reported_lift |]. intros payloadSize.
    apply reported_mbind.
    - destruct (t =? 23); [apply reported_client_Read |].
      destruct (payloadSize >? 0);
        [apply reported_client_Read | apply reported_ret].
    - intros [[[b received] err] conn'].
      destruct (is_err err);
        [apply reported_report_and_return | apply reported_ret]. }
  intros [[bBuffer' received] client'].
  apply reported_mbind.
  { unfold publish.
    apply reported_mbind; [apply reported_lift |]. intros payloadSize.
    apply reported_mbind; [apply reported_lift |]. intros tdsPacket.
    apply reported_mbind; [now apply reported_emit |]. intros _.
    apply reported_mbind.
    - destruct (st_tdsMessage s); [apply reported_ret | apply reported_lift].
    - intros msg. apply reported_mbind; [apply reported_lift |].
      intros status. destruct (_ =? _); [| apply reported_ret].
      apply reported_mbind; [now apply reported_emit |]. intros _.
      apply reported_ret. }
  intros tdsMessage.
  apply reported_mbind.
  { unfold forward.
    apply reported_mbind; [apply reported_upstream_Write |].
    intros [err conn]. destruct (is_err err);
      [apply reported_report_and_return |].
    apply reported_mbind; [apply reported_lift |]. intros t.
    apply reported_mbind; [apply reported_lift |]. intros payloadSize.
    apply reported_mbind; [apply reported_lift |]. intros out.
    apply reported_mbind; [apply reported_upstream_Write |].
    intros [err' conn']. destruct (is_err err');
      [apply reported_report_and_return | apply reported_ret]. }
  intros upstream. apply reported_ret.
Qed.

Lemma reported_ingress_loop (fuel : nat) :
  forall s,
    forallb not_disconnected (fst (ingress_loop fuel s)) = true
    /\ (snd (ingress_loop fuel s) = Some Returned ->
        exists evs err,
          fst (ingress_loop fuel s)
          = evs ++ [BridgeException ClientBridge err]).
Proof.
  induction fuel as [| fuel IH]; intros s.
  { split; [reflexivity | discriminate]. }
  cbn [ingress_loop].
  destruct (reported_iteration s) as [Hquiet Hreturn].
  destruct (iteration s) as [evs [s' | e]]; cbn [fst snd] in *.
  - destruct (IH s') as [Hquiet' Hreturn'].
    destruct (ingress_loop fuel s') as [evs' r]. cbn [fst snd] in *. split.
    + now rewrite forallb_app, Hquiet, Hquiet'.
    + intros Hr. destruct (Hreturn' Hr) as (evs0 & err & ->).
      exists (evs ++ evs0), err. now rewrite app_assoc.
  - split; [assumption |]. intros Hr.
    apply Hreturn. congruence.
Qed.

End Reported.

(** X14.  On every client socket [clientBridgeToSQLServer] leaves its loop
    within one turn more than what is left to happen on the socket.  Its
    last event is the one [ConnectionDisconnected] of the ingress side, and
    when it returned (rather than panicked) the event before is a
    [BridgeException] of the ingress side. *)
Theorem the_ingress_loop_ends_reported_and_disconnected
  (couple : ClientSocket * UpstreamSocket) :
  exists evs e,
    clientBridgeToSQLServer (S (pending_input (fst couple))) couple
    = (evs ++ [ConnectionDisconnected ClientBridge], Some e)
    /\ forallb not_disconnected evs = true
    /\ (e = Returned ->
        exists evs0 err, evs = evs0 ++ [BridgeException ClientBridge err]).
Proof.
  unfold clientBridgeToSQLServer. rewrite ingress_start_eq.
  match goal with
  | |- context [ingress_loop ?f ?s] =>
      destruct (ingress_loop_ends f s) as [e He];
        [reflexivity | cbn [st_client]; lia |];
      destruct (reported_ingress_loop f s) as [Hquiet Hreturn];
      destruct (ingress_loop f s) as [evs r]
  end.
  cbn [fst snd] in *. subst r. exists evs, e.
  split; [reflexivity |]. split; [assumption |].
  intros ->. now apply Hreturn.
Qed.

(** X16.  The ingress loop never ends in an index or a slice out of
    range: its buffers are always as large as the slices it takes. *)
Theorem the_ingress_loop_never_leaves_its_buffers
  (fuel : nat) (couple : ClientSocket * UpstreamSocket) :
  snd (clientBridgeToSQLServer fuel couple)
    <> Some (Panicked IndexOutOfRange)
  /\ snd (clientBridgeToSQLServer fuel couple)
       <> Some (Panicked SliceBoundsOutOfRange).
Proof.
  assert (Honly : forall p,
             snd (clientBridgeToSQLServer fuel couple) = Some (Panicked p) ->
             p = MakesliceLenOutOfRange).
  { intros p. unfold clientBridgeToSQLServer. rewrite ingress_start_eq.
    match goal with
    | |- context [ingress_loop fuel ?s] =>
        assert (Hwf : length (st_bHeader s) = 8%nat) by reflexivity;
        generalize dependent s
    end.
    induction fuel as [| fuel IH]; intros s Hwf; [discriminate |].
    cbn [ingress_loop].
    destruct (iteration s) as [evs r] eqn:Hturn.
    destruct (iteration_inv s evs r Hwf Hturn)
      as [(_ & _ & _ & _ & ->)
         | (header & t & st & lih & _ & _ & _ & _ & _
            & [(_ & _ & [-> | [_ ->]])
              | (_ & q & msg & out & _ & _ & _ & _ & _ & Hr)])];
      cbn [snd]; try congruence.
    destruct r as [s' | e].
    - destruct Hr as (Hwf' & _). specialize (IH s' Hwf').
      destruct (ingress_loop fuel s') as [evs' [e |]]; cbn [snd] in *;
        [exact IH | discriminate].
    - subst e. cbn [snd]. discriminate. }
  split; intros H; apply Honly in H; discriminate.
Qed.

(** X18.  In a turn that goes on to the next and whose header is not of
    the type 23, the packet the observers are told of holds the bytes the
    turn writes upstream: its eight header bytes and its payload. *)
Theorem the_packet_published_is_the_packet_forwarded
  (s s' : Ingress) (evs : list event) (header : TDSHeader) (t : Z) :
  length (st_bHeader s) = 8%nat ->
  iteration s = (evs, inl s') ->
  parsed_header s = Some header ->
  Type_ header = Ok t ->
  t <> 23 ->
  exists p rest,
    notifications evs = NPacket p :: rest
    /\ bytes_written evs = Buffer (Header p) ++ Payload p.
Proof.
  intros Hwf Hturn Hparsed Ht Hne.
  destruct (continuing_turn_events s evs s' Hwf Hturn)
    as (t' & lih & n & received & p & published & Hparsed' & Ht' & Hlih
        & Hpos & Hhead & Hpayload & Hpublished & ->).
  cbv zeta in *. rewrite Hparsed in Hparsed'. injection Hparsed' as ->.
  rewrite Ht in Ht'. apply Ok_inj in Ht'. subst t'.
  apply Z.eqb_neq in Hne. rewrite Hne.
  exists p, (notifications published).
  change (ClientRead 8 ?g None :: ?l) with ([ClientRead 8 g None] ++ l).
  rewrite !notifications_app, !bytes_written_app.
  assert (Hreads : forall l, notifications
                     (map (fun hi : Z =>
                             ClientRead hi
                               (firstn (Z.to_nat received) (st_bBuffer s'))
                               None) l) = []
                   /\ bytes_written
                        (map (fun hi : Z =>
                                ClientRead hi
                                  (firstn (Z.to_nat received) (st_bBuffer s'))
                                  None) l) = [])
    by (induction l; split; cbn; tauto).
  destruct (Hreads (payload_request t (lih - HEADER_SIZE))) as [-> ->].
  change (TDSPacketReceived p :: ?l) with ([TDSPacketReceived p] ++ l).
  rewrite !notifications_app, !bytes_written_app.
  assert (Hquiet : bytes_written published = []
                   /\ notifications published ++ [] = notifications published)
    by (destruct Hpublished as [-> | [msg ->]]; split; reflexivity).
  destruct Hquiet as [-> _].
  cbn. rewrite !app_nil_r, Hhead, Hpayload. split; reflexivity.
Qed.

(** X19.  A turn that goes on to the next does its work in this order:
    the [Read]s, then the notifications (at least that of the packet), then
    two [Write]s. *)
Theorem observers_are_told_before_the_bytes_are_forwarded
  (s s' : Ingress) (evs : list event) :
  length (st_bHeader s) = 8%nat ->
  iteration s = (evs, inl s') ->
  exists reads told forwarded,
    evs = reads ++ told ++ forwarded
    /\ notifications reads = [] /\ writes reads = []
    /\ read_requests told = [] /\ writes told = [] /\ told <> []
    /\ read_requests forwarded = [] /\ notifications forwarded = []
    /\ length (writes forwarded) = 2%nat.
Proof.
  intros Hwf Hturn.
  destruct (continuing_turn_events s evs s' Hwf Hturn)
    as (t & lih & n & received & p & published & _ & _ & _
        & _ & _ & _ & Hpublished & ->).
  exists (ClientRead 8 (firstn (Z.to_nat n) (st_bHeader s')) None
            :: map (fun hi =>
                      ClientRead hi
                        (firstn (Z.to_nat received) (st_bBuffer s')) None)
                 (payload_request t (lih - HEADER_SIZE))),
    (TDSPacketReceived p :: published),
    [UpstreamWrite (st_bHeader s') None;
     UpstreamWrite
       (firstn (Z.to_nat (if t =? 23 then received else lih - HEADER_SIZE))
          (st_bBuffer s')) None].
  split; [reflexivity |].
  assert (Hreads : forall l, notifications
                     (map (fun hi : Z =>
                             ClientRead hi
                               (firstn (Z.to_nat received) (st_bBuffer s'))
                               None) l) = []
                   /\ writes
                        (map (fun hi : Z =>
                                ClientRead hi
                                  (firstn (Z.to_nat received) (st_bBuffer s'))
                                  None) l) = [])
    by (induction l; split; cbn; tauto).
  destruct (Hreads (payload_request t (lih - HEADER_SIZE))) as [Hn Hw].
  cbn [notifications writes]. rewrite Hn, Hw.
  destruct Hpublished as [-> | [msg ->]]; repeat split; discriminate.
Qed.

(** X15.  A turn whose header is not of the type 23 ends in the panic of
    [make] exactly when the header declares fewer than eight bytes; it has
    then read the header only, told no observer and written nothing. *)
Theorem a_declared_length_below_eight_panics
  (s : Ingress) (header : TDSHeader) (t lih : Z) :
  length (st_bHeader s) = 8%nat ->
  parsed_header s = Some header ->
  Type_ header = Ok t ->
  LengthIncludingHeader header = Ok lih ->
  t <> 23 ->
  (lih < 8 <-> snd (iteration s) = inr (Panicked MakesliceLenOutOfRange))
  /\ (lih < 8 ->
      read_requests (fst (iteration s)) = [8]
      /\ notifications (fst (iteration s)) = []
      /\ writes (fst (iteration s)) = []).
Proof.
  intros Hwf Hparsed Ht Hlih Hne.
  destruct (iteration s) as [evs r] eqn:Hturn. cbn [fst snd].
  destruct (iteration_inv s evs r Hwf Hturn)
    as [(Hnone & _) | (header' & t' & st & lih' & Hsome & Ht' & Hst & Hlih' & Hreads
                       & Hrest)];
    [congruence |].
  rewrite Hparsed in Hsome. injection Hsome as <-.
  rewrite Ht in Ht'. apply Ok_inj in Ht'. subst t'.
  rewrite Hlih in Hlih'. apply Ok_inj in Hlih'. subst lih'.
  unfold payload_request, HEADER_SIZE in *.
  apply Z.eqb_neq in Hne. rewrite Hne in Hreads.
  assert (Hpanics : lih < 8 -> r = inr (Panicked MakesliceLenOutOfRange)).
  { intros Hsmall.
    unfold iteration in Hturn.
    apply mbind_inv in Hturn.
    destruct Hturn as [(e & Hh & _)
                      | (evsH & [bHeader client] & evs2 & Hh & H & ->)].
    { unfold parsed_header in Hparsed. rewrite Hh in Hparsed. discriminate. }
    pose proof (receive_header_spec _ _ _ _ Hh) as (_ & _ & _ & Hlen & _).
    assert (Hheader : NewTDSHeader bHeader = Ok {| Buffer := bHeader |})
      by (apply NewTDSHeader_whole; congruence).
    assert (header = {| Buffer := bHeader |}).
    { unfold parsed_header in Hparsed. rewrite Hh, Hheader in Hparsed.
      congruence. }
    subst header.
    rewrite Hheader in H. cbn [lift] in H. rewrite mbind_ret in H.
    destruct (ensure_buffer_spec {| Buffer := bHeader |} (st_bBuffer s) lih Hlih)
      as (bBuffer & Hensure & Hfloor & Hroom).
    rewrite Hensure in H. fold (@ret (list byte) bBuffer) in H.
    rewrite mbind_ret in H.
    assert (Hskip : receive_payload {| Buffer := bHeader |} client bBuffer
                    = ([], inl (bBuffer, 0, client))).
    { unfold receive_payload, PayloadSize. rewrite Ht, Hlih.
      cbn [bind lift]. rewrite !mbind_ret. rewrite Hne.
      replace (lih - HEADER_SIZE >? 0) with false
        by (symmetry; rewrite Z.gtb_ltb; apply Z.ltb_ge; unfold HEADER_SIZE;
            lia).
      rewrite mbind_ret. reflexivity. }
    rewrite Hskip in H.
    fold (@ret (list byte * Z * ClientSocket) (bBuffer, 0, client)) in H.
    rewrite mbind_ret in H.
    apply mbind_inv in H.
    destruct H as [(e & Hn & ->) | (evsN & tdsMessage & evs4 & Hn & _ & _)];
      apply (publish_spec _ _ _ _ t st lih) in Hn; try assumption;
      destruct Hn as (_ & _ & [(_ & _ & He) | (Hpos & _)]);
      unfold HEADER_SIZE in *; try lia; try discriminate.
    injection He as ->. reflexivity. }
  split.
  - split; [exact Hpanics |]. intros ->.
    destruct Hrest as [(_ & _ & [Hr | [Hneg _]])
                      | (_ & p & msg & out & _ & _ & _ & _ & _ & Hr)];
      [discriminate | lia | discriminate].
  - intros Hsmall. specialize (Hpanics Hsmall). subst r.
    replace (lih - 8 >? 0) with false in Hreads
      by (symmetry; rewrite Z.gtb_ltb; apply Z.ltb_ge; lia).
    destruct Hrest as [(Hw & Hn & _) | (Hpos & _)]; [| lia].
    repeat split; assumption.
Qed.

(* ===================================================================== *)
(** * The egress loop *)
(* ===================================================================== *)

Section Egress.

Lemma stream_bytes_after_Read conn b b' n conn' :
  Read conn b = (b', n, None, conn') ->
  n <> 0 ->
  stream_bytes conn = firstn (Z.to_nat n) b' ++ stream_bytes conn'
  /\ length b' = length b /\ 0 <= n <= len b'
  /\ (pending_input conn' < pending_input conn)%nat.
Proof.
  intros Hread Hn.
  pose proof (Read_inv _ _ _ _ _ _ Hread) as (Hlen & Hrange & _ & Hless).
  split; [| split; [assumption | split; [unfold len in *; lia |]]].
  2: { apply Hless; [reflexivity |]. lia. }
  unfold Read in Hread.
  destruct (len b =? 0); [inversion Hread; subst; lia |].
  destruct conn as [| [bs |] rest]; try discriminate.
  inversion Hread; subst; clear Hread.
  assert (Hgot : firstn (Z.to_nat (len (firstn (length b) bs)))
                   (copy b (firstn (length b) bs))
                 = firstn (length b) bs).
  { unfold len. rewrite Nat2Z.id. unfold copy.
    set (got := firstn (length b) bs).
    assert (Hfit : (length got <= length b)%nat)
      by (unfold got; rewrite length_firstn; lia).
    rewrite (firstn_all2 (n := length b)) by assumption.
    rewrite firstn_app, firstn_all, Nat.sub_diag. cbn [firstn].
    apply app_nil_r. }
  rewrite Hgot.
  destruct bs as [| x bs]; [destruct (length b); cbn in Hn; lia |].
  cbn [stream_bytes].
  rewrite <- (firstn_skipn (length b) (x :: bs)) at 1.
  rewrite <- app_assoc. f_equal.
  destruct (skipn (length b) (x :: bs)) as [| y left]; reflexivity.
Qed.

(** Whatever the loop does, what it has written is the beginning of what
    it has read; and with a client that takes every [Write], the loop
    hands over the whole stream and returns. *)
Lemma egress_loop_spec (fuel : nat) :
  forall sql client bBuffer,
    len bBuffer <> 0 ->
    let run := egress_loop fuel sql client bBuffer in
    (exists lost, egress_read (fst run) = egress_written (fst run) ++ lost)
    /\ (client = None -> (pending_input sql < fuel)%nat ->
        egress_written (fst run) = stream_bytes sql
        /\ snd run = Some Returned).
Proof.
  induction fuel as [| fuel IH]; intros sql client bBuffer Hbuffer run;
    subst run.
  { split; [now exists [] | intros _ Hfuel; lia]. }
  cbn [egress_loop].
  destruct (Read sql bBuffer) as [[[b' n] err] sql'] eqn:Hread.
  destruct err as [e |]; cbn [is_err orb].
  { cbn. split; [eexists; reflexivity |]. intros _ _.
    split; [| reflexivity].
    unfold Read in Hread. destruct (len bBuffer =? 0); [discriminate |].
    destruct sql as [| [bs |] rest]; try discriminate; reflexivity. }
  destruct (Z.eqb_spec n 0) as [-> | Hn].
  { cbn. split; [eexists; reflexivity |]. intros _ _.
    split; [| reflexivity].
    unfold Read in Hread. destruct (Z.eqb_spec (len bBuffer) 0); [lia |].
    destruct sql as [| [bs |] rest]; try discriminate; try reflexivity.
    inversion Hread as [[Hb Hzero Hrest]].
    destruct bs as [| x bs]; [reflexivity |].
    destruct bBuffer; [unfold len in *; cbn in *; lia |].
    unfold len in Hzero. cbn in Hzero. lia. }
  destruct (stream_bytes_after_Read _ _ _ _ _ Hread Hn)
    as (Hstream & Hlen & Hrange & Hless).
  rewrite slice_to_ok by assumption.
  destruct (Write client (firstn (Z.to_nat n) b')) as [err client'] eqn:Hwrite.
  destruct err as [e |]; cbn [is_err].
  { cbn. split; [eexists; now rewrite app_nil_r |].
    intros ->. discriminate. }
  assert (Hbuffer' : len b' <> 0) by (unfold len in *; lia).
  specialize (IH sql' client' b' Hbuffer'). cbv zeta in IH.
  destruct (egress_loop fuel sql' client' b') as [evs r]. cbn [fst snd] in *.
  destruct IH as [[lost Hprefix] Hall].
  cbn [egress_read egress_written].
  split.
  - exists lost. rewrite Hprefix. now rewrite app_assoc.
  - intros -> Hfuel. injection Hwrite as <-.
    destruct Hall as [Hwritten Hreturned]; [reflexivity | lia |].
    rewrite Hwritten, Hstream. split; [reflexivity | assumption].
Qed.

End Egress.

(** X20.  In every run of [sqlServerToClientBridge], what has been written
    to the client is the beginning of what has been read from SQL Server:
    no byte is added, changed or put out of order. *)
Theorem the_egress_loop_writes_a_prefix_of_what_it_reads
  (fuel : nat) (couple : SQLSocket * ClientSink) :
  exists lost,
    egress_read (fst (sqlServerToClientBridge fuel couple))
    = egress_written (fst (sqlServerToClientBridge fuel couple)) ++ lost.
Proof.
  unfold sqlServerToClientBridge.
  change (make x00 4096) with (Ok (repeat x00 4096)).
  destruct (egress_loop_spec fuel (fst couple) (snd couple) (repeat x00 4096))
    as [[lost Hprefix] _]; [discriminate |].
  destruct (egress_loop fuel (fst couple) (snd couple) (repeat x00 4096))
    as [evs [e |]]; cbn [fst] in *; exists lost; [| assumption].
  assert (Hlast : forall tr,
             egress_read (tr ++ [Published (ConnectionDisconnected BridgeSQL)])
             = egress_read tr
             /\ egress_written
                  (tr ++ [Published (ConnectionDisconnected BridgeSQL)])
                = egress_written tr).
  { induction tr as [| [? ? ? | ? [] | ?] tr [IHr IHw]]; cbn;
      rewrite ?IHr, ?IHw; split; reflexivity. }
  destruct (Hlast evs) as [-> ->]. assumption.
Qed.

(** X21.  With a client that takes every [Write], [sqlServerToClientBridge]
    writes all the bytes SQL Server delivers before its first failure, end
    of stream or empty read, however they are cut into segments, and then
    returns. *)
Theorem the_egress_loop_hands_over_the_whole_stream (sql : SQLSocket) :
  let run := sqlServerToClientBridge (S (pending_input sql)) (sql, None) in
  egress_written (fst run) = stream_bytes sql
  /\ snd run = Some Returned.
Proof.
  unfold sqlServerToClientBridge.
  change (make x00 4096) with (Ok (repeat x00 4096)). cbn [fst snd].
  destruct (egress_loop_spec (S (pending_input sql)) sql None
              (repeat x00 4096))
    as [_ Hall]; [discriminate |].
  destruct Hall as [Hwritten Hreturned]; [reflexivity | lia |].
  destruct (egress_loop (S (pending_input sql)) sql None (repeat x00 4096))
    as [evs r]. cbn [fst snd] in *. subst r. cbn [fst snd].
  split; [| reflexivity]. rewrite <- Hwritten.
  clear. induction evs as [| [? ? ? | ? [] | ?] tr IH]; cbn;
    rewrite ?IH; reflexivity.
Qed.

Section Acceptor.

Lemma acceptor_step_keeps (ba : Main.BridgeAcceptor) (c : acceptor_call) :
  Main.listener ba
  = (if Main.enabled ba then Some (Main.acceptPort ba) else None) ->
  let ba' := acceptor_step ba c in
  Main.listener ba'
  = (if Main.enabled ba' then Some (Main.acceptPort ba') else None)
  /\ Main.acceptPort ba' = Main.acceptPort ba
  /\ Main.sqlServerEndpoint ba' = Main.sqlServerEndpoint ba.
Proof.
  intros Hinv. destruct ba as [port endpoint on l]. cbn in Hinv. subst l.
  destruct c as [[|] |]; destruct on; cbn; repeat split.
Qed.

Lemma acceptor_run_keeps (calls : list acceptor_call) :
  forall ba,
    Main.listener ba
    = (if Main.enabled ba then Some (Main.acceptPort ba) else None) ->
    let ba' := acceptor_run ba calls in
    Main.listener ba'
    = (if Main.enabled ba' then Some (Main.acceptPort ba') else None)
    /\ Main.acceptPort ba' = Main.acceptPort ba
    /\ Main.sqlServerEndpoint ba' = Main.sqlServerEndpoint ba.
Proof.
  induction calls as [| c calls IH]; intros ba Hinv; cbn [acceptor_run fold_left].
  - repeat split. assumption.
  - destruct (acceptor_step_keeps ba c Hinv) as (Hinv' & Hport & Hendpoint).
    destruct (IH _ Hinv') as (Hinv'' & Hport' & Hendpoint').
    cbv zeta in *. unfold acceptor_run in *.
    repeat split; congruence.
Qed.

End Acceptor.

(** X22.  After any calls to [Start] and [Stop] on a new acceptor, it has a
    listener exactly when it is enabled, and its port and endpoint are the
    ones it was made with; from there [Stop] leaves it disabled, a [Start]
    that can bind leaves it enabled, and a [Start] that cannot leaves it as
    it was. *)
Theorem acceptor_listens_exactly_while_enabled
  (port : Main.text) (endpoint : Main.text * Main.text)
  (calls : list acceptor_call) :
  let ba := acceptor_run (Main.NewBridgeAcceptor port endpoint) calls in
  Main.listener ba = (if Main.enabled ba then Some port else None)
  /\ Main.acceptPort ba = port
  /\ Main.sqlServerEndpoint ba = endpoint
  /\ Main.enabled (acceptor_step ba CallStop) = false
  /\ Main.enabled (acceptor_step ba (CallStart true)) = true
  /\ Main.enabled (acceptor_step ba (CallStart false)) = Main.enabled ba.
Proof.
  destruct (acceptor_run_keeps calls (Main.NewBridgeAcceptor port endpoint)
              eq_refl) as (Hinv & Hport & Hendpoint).
  cbv zeta in *. cbn [Main.NewBridgeAcceptor Main.acceptPort
                        Main.sqlServerEndpoint] in *.
  rewrite Hport in Hinv.
  repeat split; try assumption;
    destruct (acceptor_run _ calls) as [p e on l]; destruct on; reflexivity.
Qed.

(* ===================================================================== *)
(** * The properties above, at concrete inputs *)
(* ===================================================================== *)

Lemma length_written_with_SetByte_witness :
  exists h1 h2,
    SetByte {| Buffer := header_batch_12 |} 2 (byte.of_Z (300 / 256)) = Ok h1
    /\ SetByte h1 3 (byte.of_Z 300) = Ok h2
    /\ LengthIncludingHeader h2 = Ok 300
    /\ PayloadSize h2 = Ok (300 - 8).
Proof.
  apply (length_written_with_SetByte_is_read_back
           {| Buffer := header_batch_12 |} 300); [reflexivity | lia].
Defined.

Lemma header_fields_witness :
  exists t status lih,
    Type_ {| Buffer := header_batch_12 |} = Ok t
    /\ StatusBitMask {| Buffer := header_batch_12 |} = Ok status
    /\ LengthIncludingHeader {| Buffer := header_batch_12 |} = Ok lih
    /\ PayloadSize {| Buffer := header_batch_12 |} = Ok (lih - 8)
    /\ 0 <= t <= 255
    /\ 0 <= lih <= 65535.
Proof.
  apply (header_fields_of_a_made_header header_batch_12
           {| Buffer := header_batch_12 |}).
  reflexivity.
Defined.

Lemma AllHeader_Length_witness :
  AllHeader_Length (NewAllHeader (le_split 4 22 ++ bytes [0x41; 0])) = Ok 22.
Proof.
  apply (AllHeader_Length_reads_back_little_endian 22 (bytes [0x41; 0])).
  lia.
Defined.

Lemma NewTDSPacketFromBuffer_witness :
  exists P,
    NewTDSPacketFromBuffer
      (header_batch_12 ++ bytes [0x41; 0; 0x42; 0; 9; 9]) = Ok P
    /\ Buffer (Header P) ++ Payload P
       = firstn (Z.to_nat 12)
           (header_batch_12 ++ bytes [0x41; 0; 0x42; 0; 9; 9]).
Proof.
  apply (NewTDSPacketFromBuffer_reads_back_a_packet
           (header_batch_12 ++ bytes [0x41; 0; 0x42; 0; 9; 9])
           {| Buffer := header_batch_12 |} 12).
  - reflexivity.
  - reflexivity.
  - split; [lia | vm_compute; discriminate].
Defined.

Lemma packet_constructors_witness :
  NewTDSPacketFromBuffer (header_batch_12 ++ bytes [0x41; 0; 0x42; 0])
  = NewTDSPacket header_batch_12 (bytes [0x41; 0; 0x42; 0]) 4.
Proof.
  apply (the_two_packet_constructors_agree
           header_batch_12 (bytes [0x41; 0; 0x42; 0]) 4);
    reflexivity.
Defined.

Lemma completeness_witness :
  IsComplete
    (SQLBatchMessage
       {| Packets := [packet_first_half; packet_second_half] |})
  = Ok (Z.testbit (byte.unsigned (byte.of_Z 1)) 0)
  /\ HasIgnoreBitSet
       (SQLBatchMessage
          {| Packets := [packet_first_half; packet_second_half] |})
     = Ok (Z.testbit (byte.unsigned (byte.of_Z 1)) 1).
Proof.
  apply (completeness_is_told_by_the_last_packet
           (SQLBatchMessage
              {| Packets := [packet_first_half; packet_second_half] |})
           [packet_first_half] packet_second_half (byte.of_Z 1));
    reflexivity.
Defined.

Lemma declared_length_below_eight_witness :
  (7 < 8 <-> snd (iteration turn_on_short_length)
             = inr (Panicked MakesliceLenOutOfRange))
  /\ (7 < 8 ->
      read_requests (fst (iteration turn_on_short_length)) = [8]
      /\ notifications (fst (iteration turn_on_short_length)) = []
      /\ writes (fst (iteration turn_on_short_length)) = []).
Proof.
  apply (a_declared_length_below_eight_panics turn_on_short_length
           {| Buffer := header_length_7 |} 1 7);
    [reflexivity | reflexivity | reflexivity | reflexivity | lia].
Defined.

Lemma first_turn_goes_on :
  iteration first_turn = (fst (iteration first_turn), inl second_turn).
Proof. vm_compute. reflexivity. Qed.

Lemma whole_reads_witness :
  bytes_written (fst (iteration first_turn))
  = bytes_read (fst (iteration first_turn)).
Proof.
  apply (whole_reads_are_forwarded first_turn (fst (iteration first_turn))
           second_turn {| Buffer := header_batch_12 |} 1).
  - reflexivity.
  - exact first_turn_goes_on.
  - reflexivity.
  - reflexivity.
  - vm_compute. reflexivity.
Defined.

Lemma packet_published_witness :
  exists p rest,
    notifications (fst (iteration first_turn)) = NPacket p :: rest
    /\ bytes_written (fst (iteration first_turn))
       = Buffer (Header p) ++ Payload p.
Proof.
  apply (the_packet_published_is_the_packet_forwarded first_turn second_turn
           (fst (iteration first_turn)) {| Buffer := header_batch_12 |} 1).
  - reflexivity.
  - exact first_turn_goes_on.
  - reflexivity.
  - reflexivity.
  - lia.
Defined.

Lemma observers_told_before_witness :
  exists reads told forwarded,
    fst (iteration first_turn) = reads ++ told ++ forwarded
    /\ notifications reads = [] /\ writes reads = []
    /\ read_requests told = [] /\ writes told = [] /\ told <> []
    /\ read_requests forwarded = [] /\ notifications forwarded = []
    /\ length (writes forwarded) = 2%nat.
Proof.
  apply (observers_are_told_before_the_bytes_are_forwarded
           first_turn second_turn (fst (iteration first_turn))).
  - reflexivity.
  - exact first_turn_goes_on.
Defined.
